(** * Vegetation counting by HSV thresholding: a model of [app.py]

    The development embeds the two utility functions of the application,
    [load_color_image] and [segment_hsv], together with the part of
    [main_app] that consumes their results, and proves the properties the
    specification states about them.

    OpenCV and NumPy are external libraries.  Their element-wise routines
    ([cv2.inRange], [cv2.bitwise_and], [np.sum], the channel swap of
    [cv2.cvtColor]) are written out from their documented semantics; the
    routines whose numeric content no property depends on (the container
    decoder, the BGR to HSV formula, the area resampler) are arguments of
    the functions below, so every theorem holds for any implementation of
    them. *)

From Stdlib Require Import ZArith QArith Qabs Qround Qpower Lia Lqa String.
From Stdlib Require Import Ascii Decimal DecimalString DecimalZ DecimalN.
From Stdlib Require Import SpecFloat.
From stdpp Require Import base option list gmap.

Local Open Scope Z_scope.

(** ** Arrays *)

(** A three-channel 8-bit pixel, channels in storage order. *)
Record pixel : Type := Px { ch0 : Z; ch1 : Z; ch2 : Z }.

Definition black : pixel := Px 0 0 0.

(** A NumPy array of shape [(shape0, shape1)] (rows, columns) over elements
    of type [A], with its row-major buffer.  A colour image is an
    [ndarray pixel], a mask an [ndarray Z]. *)
Record ndarray (A : Type) : Type :=
  NdArray { shape0 : Z; shape1 : Z; data : list A }.

Arguments NdArray {A} _ _ _.
Arguments shape0 {A} _.
Arguments shape1 {A} _.
Arguments data {A} _.

Definition image := ndarray pixel.
Definition mask_t := ndarray Z.

(** The buffer holds exactly [shape0 * shape1] elements. *)
Definition well_formed {A} (a : ndarray A) : Prop :=
  0 <= shape0 a /\ 0 <= shape1 a /\
  Z.of_nat (length (data a)) = shape0 a * shape1 a.

(** [cv::Mat::empty]: no element along one of the axes. *)
Definition is_empty {A} (a : ndarray A) : bool :=
  (shape0 a <=? 0) || (shape1 a <=? 0).

Definition same_shape {A B} (a : ndarray A) (b : ndarray B) : bool :=
  (shape0 a =? shape0 b) && (shape1 a =? shape1 b).

(** Element-wise map, the shape is kept. *)
Definition nd_map {A B} (f : A -> B) (a : ndarray A) : ndarray B :=
  NdArray (shape0 a) (shape1 a) (f <$> data a).

(** ** Exceptions *)

(** A raised exception, with the text [str(e)] shows. *)
Inductive exn : Type :=
| CvError (what : string)
| OSError (what : string)
| ZeroDivisionError (what : string).

Definition exn_text (e : exn) : string :=
  match e with
  | CvError what => what
  | OSError what => what
  | ZeroDivisionError what => what
  end.

(** The outcome of a Python call: a value or a raised exception. *)
Inductive exc (A : Type) : Type :=
| Ok (a : A)
| Raise (e : exn).

Arguments Ok {A} _.
Arguments Raise {A} _.

#[global] Instance exc_ret : MRet exc := fun A a => Ok a.

#[global] Instance exc_bind : MBind exc := fun A B k m =>
  match m with
  | Ok a => k a
  | Raise e => Raise e
  end.

(** ** OpenCV and NumPy element-wise routines *)

(** [cv2.inRange(src, lowerb, upperb)] on a three-channel array: 255 where
    every channel lies between its bounds, both ends included, 0 elsewhere. *)
Definition in_bounds (lo hi v : Z) : bool := (lo <=? v) && (v <=? hi).

Definition inRange_px (lowerb upperb : pixel) (p : pixel) : Z :=
  if in_bounds (ch0 lowerb) (ch0 upperb) (ch0 p)
     && in_bounds (ch1 lowerb) (ch1 upperb) (ch1 p)
     && in_bounds (ch2 lowerb) (ch2 upperb) (ch2 p)
  then 255 else 0.

(** The bounds reach [cv2.inRange] as the arrays [np.array([...])] builds
    from Python integers, of 64-bit elements.  OpenCV has no 64-bit
    integer depth: the call narrows them to 32-bit integers, keeping the
    low 32 bits, and compares the 8-bit channels with the narrowed
    bounds. *)
Definition wrap_int32 (z : Z) : Z := (z + 2 ^ 31) mod 2 ^ 32 - 2 ^ 31.

Definition narrow_int32 (b : pixel) : pixel :=
  Px (wrap_int32 (ch0 b)) (wrap_int32 (ch1 b)) (wrap_int32 (ch2 b)).

Definition inRange (src : image) (lowerb upperb : pixel) : mask_t :=
  nd_map (inRange_px (narrow_int32 lowerb) (narrow_int32 upperb)) src.

(** A bound that the narrowing leaves as it is. *)
Definition fits_int32 (z : Z) : Prop := - 2 ^ 31 <= z < 2 ^ 31.

(** [cv2.bitwise_and(src1, src2, mask=mask)] with a freshly allocated
    destination: the destination starts zeroed and receives
    [src1 & src2] where the mask is nonzero. *)
Definition and_px (p q : pixel) : pixel :=
  Px (Z.land (ch0 p) (ch0 q)) (Z.land (ch1 p) (ch1 q)) (Z.land (ch2 p) (ch2 q)).

Fixpoint and_masked (s1 s2 : list pixel) (m : list Z) : list pixel :=
  match s1, s2, m with
  | p :: s1', q :: s2', v :: m' =>
      (if v =? 0 then black else and_px p q) :: and_masked s1' s2' m'
  | _, _, _ => []
  end.

Definition bitwise_and (src1 src2 : image) (mask : mask_t) : exc image :=
  if same_shape src1 src2 && same_shape src1 mask
  then Ok (NdArray (shape0 src1) (shape1 src1)
                   (and_masked (data src1) (data src2) (data mask)))
  else Raise (CvError "bitwise_and: sizes do not match").

(** [mask > 0] followed by [np.sum]: the number of [True] entries. *)
Definition np_gt0 (a : mask_t) : ndarray bool := nd_map (fun v => 0 <? v) a.

Fixpoint count_true (l : list bool) : Z :=
  match l with
  | [] => 0
  | b :: l' => (if b then 1 else 0) + count_true l'
  end.

Definition np_sum (a : ndarray bool) : Z := count_true (data a).

(** [cv2.cvtColor(img, cv2.COLOR_BGR2RGB)]: channels 0 and 2 exchanged. *)
Definition swap_rb (p : pixel) : pixel := Px (ch2 p) (ch1 p) (ch0 p).

Definition cvtColor_BGR2RGB (src : image) : exc image :=
  if is_empty src then Raise (CvError "cvtColor: empty source")
  else Ok (nd_map swap_rb src).

(** ** Binary64 arithmetic *)

(** Python's [float] and NumPy's [float64] are IEEE 754 binary64 numbers.
    A finite one is represented by the rational it denotes, and an
    operation is the exact rational operation followed by rounding to the
    nearest representable number, ties to the even significand.  Overflow
    to infinity is outside the model: every quantity below is bounded by
    the pixel count of an image. *)
Module Float64.

Local Open Scope Q_scope.

Definition float := Q.

Definition pow2 (k : Z) : Q := 2 ^ k.

(** The integer [e] with [2^e <= x < 2^(e+1)], for positive [x]. *)
Definition ilog2 (x : Q) : Z :=
  let e0 := (Z.log2 (Qnum x) - Z.log2 (Zpos (Qden x)))%Z in
  if Qle_bool (pow2 e0) x then e0 else (e0 - 1)%Z.

(** Nearest integer, ties to even. *)
Definition rnd_even (x : Q) : Z :=
  let f := Qfloor x in
  match Qcompare (x - inject_Z f) (1 # 2) with
  | Lt => f
  | Gt => (f + 1)%Z
  | Eq => if Z.even f then f else (f + 1)%Z
  end.

(** Exponent of the last place: 53 significant bits, subnormals from
    [2^-1074]. *)
Definition fexp (x : Q) : Z := Z.max (ilog2 (Qabs x) - 52) (-1074).

(** Rounding of a rational to binary64. *)
Definition fl (x : Q) : float :=
  if Qeq_bool x 0 then 0
  else Qred (inject_Z (rnd_even (x * pow2 (- fexp x))) * pow2 (fexp x)).

(** [float(z)]. *)
Definition float_of_int (z : Z) : float := fl (inject_Z z).

Definition fmul (a b : float) : float := fl (a * b).

(** Division; the divisors below are 255 and the pixel count of a
    non-empty image, never zero. *)
Definition fdiv (a b : float) : float := fl (a / b).

(** Python's [a / b] on two [int]s: the correctly rounded quotient. *)
Definition py_truediv (a b : Z) : exc float :=
  if (b =? 0)%Z then Raise (ZeroDivisionError "division by zero")
  else Ok (fl (inject_Z a / inject_Z b)).

(** Python's [int(x)]: truncation toward zero. *)
Definition int_of_float (x : float) : Z :=
  if Qle_bool 0 x then Qfloor x else Qceiling x.

(** Python's [round(x)]: nearest integer, ties to even. *)
Definition py_round (x : float) : Z := rnd_even x.

(** The same values in the Standard Library's bit-level model, for
    cross-checking. *)
Definition Z2SF (z : Z) : spec_float := binary_normalize 53 1024 z 0 false.

Definition SF2Q (f : spec_float) : Q :=
  match f with
  | S754_finite s m e =>
      Qred (inject_Z (if s then Zneg m else Zpos m) * pow2 e)
  | _ => 0
  end.

End Float64.

Import Float64.

(** ** Colour conversion to HSV *)

(** [cv2.cvtColor(src, cv2.COLOR_BGR2HSV)] applies one formula to every
    pixel and refuses an empty source.  The formula is the argument
    [BGR2HSV]. *)
Definition cvtColor_BGR2HSV (BGR2HSV : pixel -> pixel) (src : image) : exc image :=
  if is_empty src then Raise (CvError "cvtColor: empty source")
  else Ok (nd_map BGR2HSV src).

(** The fixed-point formula OpenCV applies to 8-bit pixels, hue in
    [0, 180).  The two tables hold [255 * 2^12 / i] and
    [180 * 2^12 / (6 * i)] rounded to the nearest integer (no entry is a
    tie). *)
Definition hsv_shift : Z := 12.

Definition round_div (a b : Z) : Z := (2 * a + b) / (2 * b).

Definition sdiv_table (i : Z) : Z :=
  if i =? 0 then 0 else round_div (Z.shiftl 255 hsv_shift) i.

Definition hdiv_table180 (i : Z) : Z :=
  if i =? 0 then 0 else round_div (Z.shiftl 180 hsv_shift) (6 * i).

Definition BGR2HSV_8u (p : pixel) : pixel :=
  let b := ch0 p in
  let g := ch1 p in
  let r := ch2 p in
  let v := Z.max (Z.max b g) r in
  let vmin := Z.min (Z.min b g) r in
  let diff := v - vmin in
  let s := Z.shiftr (diff * sdiv_table v + Z.shiftl 1 (hsv_shift - 1)) hsv_shift in
  let h0 :=
    if v =? r then g - b
    else if v =? g then b - r + 2 * diff
    else r - g + 4 * diff in
  let h1 := Z.shiftr (h0 * hdiv_table180 diff + Z.shiftl 1 (hsv_shift - 1)) hsv_shift in
  let h := if h1 <? 0 then h1 + 180 else h1 in
  Px h s v.

(** ** [segment_hsv] *)

Definition segment_hsv (BGR2HSV : pixel -> pixel) (img_bgr : image)
    (h_min h_max s_min s_max v_min v_max : Z) : exc (mask_t * image * float) :=
  img_hsv ← cvtColor_BGR2HSV BGR2HSV img_bgr;
  let lower_bound := Px h_min s_min v_min in
  let upper_bound := Px h_max s_max v_max in
  let mask := inRange img_hsv lower_bound upper_bound in
  result ← bitwise_and img_bgr img_bgr mask;
  let pixel_count := fdiv (float_of_int (np_sum (np_gt0 mask))) (float_of_int 255) in
  mret (mask, result, pixel_count).

(** The number of elements of a mask equal to [v]. *)
Fixpoint count_eq (v : Z) (l : list Z) : Z :=
  match l with
  | [] => 0
  | x :: l' => (if x =? v then 1 else 0) + count_eq v l'
  end.

(** ** Streamlit output *)

Inductive metric_value : Type :=
| MInt (n : Z)
| MFloat (x : float).

(** The widgets that carry data; titles, captions and layout are not
    recorded. *)
Inductive ui_event : Type :=
| StInfo (msg : string)
| StError (msg : string)
| StSuccess (msg : string)
| StImage (img : image)
| StImageMask (m : mask_t)
| StMetric (label : string) (value : metric_value).

(** ** [load_color_image] *)

(** The uploaded file: what its [read()] returns or raises. *)
Record uploaded_file_t : Type := Upload { read : exc (list Byte.byte) }.

(** [cv2.resize(src, (w, h), interpolation=cv2.INTER_AREA)]: an array of
    [h] rows and [w] columns, refused when the source or the requested
    size is empty.  The resampled pixels are the argument [resample]. *)
Definition cv2_resize (resample : image -> Z -> Z -> list pixel)
    (src : image) (dsize : Z * Z) : exc image :=
  let '(w, h) := dsize in
  if is_empty src then Raise (CvError "resize: empty source")
  else if (w <=? 0) || (h <=? 0) then Raise (CvError "resize: empty size")
  else Ok (NdArray h w (resample src w h)).

(** The body of the [try] block.  [imdecode] is [cv2.imdecode] with
    [cv2.IMREAD_COLOR]: [None] when the buffer does not decode. *)
Definition load_color_image_try
    (imdecode : list Byte.byte -> exc (option image))
    (resample : image -> Z -> Z -> list pixel)
    (uploaded_file : uploaded_file_t) : exc (list ui_event * option image) :=
  file_bytes ← read uploaded_file;
  img_color ← imdecode file_bytes;
  match img_color with
  | None =>
      mret ([StError "Gagal memuat citra. Pastikan format file didukung atau citra tidak rusak."],
            None)
  | Some img_color =>
      let rows := shape0 img_color in
      let cols := shape1 img_color in
      if (800 <? rows) || (800 <? cols) then
        scale ← py_truediv 800 (Z.max rows cols);
        let new_size := (int_of_float (fmul (float_of_int cols) scale),
                         int_of_float (fmul (float_of_int rows) scale)) in
        img_color ← cv2_resize resample img_color new_size;
        mret ([], Some img_color)
      else mret ([], Some img_color)
  end.

Definition load_color_image
    (imdecode : list Byte.byte -> exc (option image))
    (resample : image -> Z -> Z -> list pixel)
    (uploaded_file : option uploaded_file_t) : exc (list ui_event * option image) :=
  match uploaded_file with
  | None => mret ([], None)
  | Some f =>
      match load_color_image_try imdecode resample f with
      | Ok r => mret r
      | Raise e =>
          mret ([StError ("Terjadi kesalahan saat memproses citra: " ++ exn_text e)], None)
      end
  end.

(** The target size the specification describes: each side scaled and
    rounded to the nearest integer. *)
Definition spec_new_size (rows cols : Z) : exc (Z * Z) :=
  scale ← py_truediv 800 (Z.max rows cols);
  mret (py_round (fmul (float_of_int cols) scale),
        py_round (fmul (float_of_int rows) scale)).

(** ** [main_app] *)

(** Step 4 of [main_app], "Proses dan Tampilkan Hasil", up to the mask
    image: segmentation of the loaded image with the six slider values,
    and the widgets it fills.  The note that closes the step is added by
    [main_app]. *)
Definition main_app_results (BGR2HSV : pixel -> pixel) (img_bgr : image)
    (h_min h_max s_min s_max v_min v_max : Z) : exc (list ui_event) :=
  '(mask, result_bgr, pixel_count) ←
    segment_hsv BGR2HSV img_bgr h_min h_max s_min s_max v_min v_max;
  img_rgb ← cvtColor_BGR2RGB img_bgr;
  result_rgb ← cvtColor_BGR2RGB result_bgr;
  let total_pixels := shape0 img_bgr * shape1 img_bgr in
  let percentage :=
    fmul (fdiv pixel_count (float_of_int total_pixels)) (float_of_int 100) in
  mret [StImage img_rgb;
        StImage result_rgb;
        StMetric "Total Piksel Vegetasi Terdeteksi (Area Hijau)"
                 (MInt (int_of_float pixel_count));
        StMetric "Persentase Area Vegetasi" (MFloat percentage);
        StImageMask mask].

(** [str(n)] for an [int]. *)
Definition py_str_int (n : Z) : string := NilZero.string_of_int (Z.to_int n).

(** The text of the note that closes step 4, an f-string over the six
    slider values. *)
Definition range_note (h_min h_max s_min s_max v_min v_max : Z) : string :=
  "**Rentang HSV yang Digunakan:** H: [" ++ py_str_int h_min ++ ", " ++ py_str_int h_max
  ++ "], S: [" ++ py_str_int s_min ++ ", " ++ py_str_int s_max
  ++ "], V: [" ++ py_str_int v_min ++ ", " ++ py_str_int v_max ++ "]".

(** One run of the page for an upload and the six slider values.  Texts
    are the UTF-8 bytes of the source's literals. *)
Definition main_app
    (imdecode : list Byte.byte -> exc (option image))
    (resample : image -> Z -> Z -> list pixel)
    (BGR2HSV : pixel -> pixel)
    (uploaded_file : option uploaded_file_t)
    (h_min h_max s_min s_max v_min v_max : Z) : exc (list ui_event) :=
  match uploaded_file with
  | None => mret [StInfo "⬆️ Silakan unggah citra satelit Anda untuk memulai analisis."]
  | Some _ =>
      '(shown, loaded) ← load_color_image imdecode resample uploaded_file;
      match loaded with
      | None => mret shown
      | Some img_bgr =>
          results ← main_app_results BGR2HSV img_bgr h_min h_max s_min s_max v_min v_max;
          mret (shown
                ++ StSuccess "✅ Citra berhasil dimuat. Lanjutkan ke langkah 2 untuk mengontrol segmentasi."
                   :: results
                ++ [StInfo (range_note h_min h_max s_min s_max v_min v_max)])
      end
  end.

(** Whether a widget shows a segmentation product. *)
Definition is_result_event (e : ui_event) : bool :=
  match e with
  | StImage _ | StImageMask _ | StMetric _ _ => true
  | _ => false
  end.

(** ** The object store *)

(** NumPy arrays are mutable objects passed by reference.  The store maps
    an object identity to its current contents; every OpenCV call below
    reads its arguments from the store and allocates its result. *)
Inductive pyobj : Type :=
| ObjImage (a : image)
| ObjMask (a : mask_t).

Abbreviation loc := positive (only parsing).
Abbreviation store := (gmap positive pyobj) (only parsing).

(** A computation on the store that may raise. *)
Definition St (A : Type) : Type := store -> exc (A * store).

Definition st_ret {A} (a : A) : St A := fun σ => Ok (a, σ).

Definition st_bind {A B} (m : St A) (k : A -> St B) : St B :=
  fun σ => match m σ with
           | Ok (a, σ') => k a σ'
           | Raise e => Raise e
           end.

Definition st_lift {A} (m : exc A) : St A :=
  fun σ => match m with
           | Ok a => Ok (a, σ)
           | Raise e => Raise e
           end.

Definition alloc (o : pyobj) : St loc :=
  fun σ => let l := fresh (dom σ) in Ok (l, <[l := o]> σ).

Definition get_image (l : loc) : St image :=
  fun σ => match σ !! l with
           | Some (ObjImage a) => Ok (a, σ)
           | _ => Raise (CvError "expected a 3-channel array")
           end.

Definition get_mask (l : loc) : St mask_t :=
  fun σ => match σ !! l with
           | Some (ObjMask a) => Ok (a, σ)
           | _ => Raise (CvError "expected a 1-channel array")
           end.

Notation "x ←ₛ m ; k" := (st_bind m (fun x => k))
  (at level 20, m at level 100, k at level 200, only parsing, right associativity).

(** [segment_hsv] called on a reference to the image. *)
Definition segment_hsv_ref (BGR2HSV : pixel -> pixel) (img_bgr : loc)
    (h_min h_max s_min s_max v_min v_max : Z) : St (loc * loc * float) :=
  src ←ₛ get_image img_bgr;
  hsv ←ₛ st_lift (cvtColor_BGR2HSV BGR2HSV src);
  img_hsv ←ₛ alloc (ObjImage hsv);
  let lower_bound := Px h_min s_min v_min in
  let upper_bound := Px h_max s_max v_max in
  hsv' ←ₛ get_image img_hsv;
  mask ←ₛ alloc (ObjMask (inRange hsv' lower_bound upper_bound));
  src1 ←ₛ get_image img_bgr;
  src2 ←ₛ get_image img_bgr;
  m ←ₛ get_mask mask;
  res ←ₛ st_lift (bitwise_and src1 src2 m);
  result ←ₛ alloc (ObjImage res);
  m' ←ₛ get_mask mask;
  let pixel_count := fdiv (float_of_int (np_sum (np_gt0 m'))) (float_of_int 255) in
  st_ret (mask, result, pixel_count).

(** ** Stand-ins for the library parameters *)

(** A decoder of a raw format (the byte [0x50], the number of rows, then
    one grey byte per pixel) and a resampler that repeats the first pixel,
    to run the functions above on concrete uploads. *)
Definition grey (b : Byte.byte) : pixel :=
  let v := Z.of_N (Byte.to_N b) in Px v v v.

Definition raw_imdecode (buf : list Byte.byte) : exc (option image) :=
  match buf with
  | [] => Raise (CvError "imdecode: empty buffer")
  | b :: r :: rest =>
      let rows := Z.of_N (Byte.to_N r) in
      let n := Z.of_nat (length rest) in
      if (Z.of_N (Byte.to_N b) =? 80) && (0 <? rows) && (0 <? n) && (n mod rows =? 0)
      then Ok (Some (NdArray rows (n / rows) (grey <$> rest)))
      else Ok None
  | _ => Ok None
  end.

Definition first_pixel_resample (src : image) (w h : Z) : list pixel :=
  replicate (Z.to_nat (w * h)) (default black (head (data src))).

(** ** Text of the count metric *)

(** The value of the first metric is
    [f"{int(pixel_count):,}".replace(",", ".")].  The format [,] writes the
    decimal digits with a comma before every group of three digits counted
    from the right, after the sign. *)
Fixpoint group3 (l : list ascii) : list ascii :=
  match l with
  | a :: b :: c :: rest =>
      match rest with
      | [] => [a; b; c]
      | _ => a :: b :: c :: ","%char :: group3 rest
      end
  | _ => l
  end.

Definition py_format_comma (n : Z) : string :=
  let digits := list_ascii_of_string (NilZero.string_of_uint (N.to_uint (Z.abs_N n))) in
  let body := string_of_list_ascii (rev (group3 (rev digits))) in
  if n <? 0 then String "-" body else body.

(** [s.replace(old, new)] for one-character [old] and [new]. *)
Definition subst_char (old new : ascii) (c : ascii) : ascii :=
  if Ascii.eqb c old then new else c.

Definition replace_char (old new : ascii) (s : string) : string :=
  string_of_list_ascii (List.map (subst_char old new) (list_ascii_of_string s)).

Definition count_text (n : Z) : string := replace_char "," "." (py_format_comma n).

(** Deleting a character, and the decimal digits, to state what the text
    holds. *)
Definition not_char (old : ascii) (c : ascii) : bool := negb (Ascii.eqb c old).

Definition remove_char (old : ascii) (s : string) : string :=
  string_of_list_ascii (List.filter (not_char old) (list_ascii_of_string s)).

Definition is_digit (c : ascii) : bool :=
  let n := nat_of_ascii c in (48 <=? n)%nat && (n <=? 57)%nat.

(** ** Sample inputs *)

(** A 2x2 image whose pixels convert to HSV (60,200,200), (10,200,200),
    (60,10,200) and (60,204,10), and the default slider values. *)
Definition scenario_image : image :=
  NdArray 2 2 [Px 43 200 43; Px 43 95 200; Px 192 200 192; Px 2 10 2].

(** A single green pixel. *)
Definition green_pixel_image : image := NdArray 1 1 [Px 43 200 43].

(** Uploads in the raw format: a 2x801 image, a 1x2 image, and a buffer
    that is no image. *)
Definition wide_upload : uploaded_file_t :=
  Upload (Ok (Byte.x50 :: Byte.x02 :: replicate 1602 Byte.x80)).

Definition wide_image : image := NdArray 2 801 (replicate 1602 (Px 128 128 128)).

Definition small_upload : uploaded_file_t :=
  Upload (Ok [Byte.x50; Byte.x01; Byte.x10; Byte.x20]).

Definition broken_upload : uploaded_file_t :=
  Upload (Ok [Byte.x00; Byte.x01; Byte.x02]).

(** * Properties *)

(** ** Binary64 rounding *)

Module Float64Facts.

Local Open Scope Q_scope.

Lemma pow2_pos k : 0 < pow2 k.
Proof. apply Qpower_0_lt. reflexivity. Qed.

Lemma pow2_add a b : pow2 (a + b) == pow2 a * pow2 b.
Proof. apply Qpower_plus. discriminate. Qed.

Lemma pow2_opp a : pow2 (- a) * pow2 a == 1.
Proof. rewrite <- pow2_add. replace (- a + a)%Z with 0%Z by lia. reflexivity. Qed.

Lemma pow2_Z a : (0 <= a)%Z -> pow2 a == inject_Z (2 ^ a).
Proof. intros H. symmetry. apply (Zpower_Qpower 2 a H). Qed.

Lemma pow2_le a b : (a <= b)%Z -> pow2 a <= pow2 b.
Proof. intros H. apply Qpower_le_compat_l; [exact H | discriminate]. Qed.

Lemma pow2_lt a b : (a < b)%Z -> pow2 a < pow2 b.
Proof. intros H. apply Qpower_lt_compat_l; [exact H | reflexivity]. Qed.

Lemma pow2_lt_inv a b : pow2 a < pow2 b -> (a < b)%Z.
Proof. intros H. apply (Qpower_lt_compat_l_inv 2); [exact H | reflexivity]. Qed.

Lemma pow2_succ a : pow2 (a + 1) == 2 * pow2 a.
Proof. rewrite pow2_add. change (pow2 1) with 2. ring. Qed.

Lemma Zlog2_pow2_bounds (n : Z) :
  (0 < n)%Z -> pow2 (Z.log2 n) <= inject_Z n /\ inject_Z n < pow2 (Z.log2 n + 1).
Proof.
  intros Hn. pose proof (Z.log2_spec n Hn) as [Hl Hu].
  pose proof (Z.log2_nonneg n) as H0.
  rewrite !pow2_Z by lia. split.
  - rewrite <- Zle_Qle. exact Hl.
  - rewrite <- Zlt_Qlt. replace (Z.log2 n + 1)%Z with (Z.succ (Z.log2 n)) by lia. exact Hu.
Qed.

Lemma ilog2_spec x : 0 < x -> pow2 (ilog2 x) <= x /\ x < pow2 (ilog2 x + 1).
Proof.
  intros Hx. destruct x as [n d]. unfold ilog2. cbn [Qnum Qden].
  assert (Hn : (0 < n)%Z) by (unfold Qlt in Hx; cbn in Hx; lia).
  destruct (Zlog2_pow2_bounds n Hn) as [Hnl Hnu].
  destruct (Zlog2_pow2_bounds (Zpos d) eq_refl) as [Hdl Hdu].
  set (a := Z.log2 n) in *. set (b := Z.log2 (Zpos d)) in *.
  pose proof (Qmake_Qdiv n d) as Hq.
  assert (HD : 0 < inject_Z (Zpos d)) by reflexivity.
  assert (Hxd : (n # d) * inject_Z (Zpos d) == inject_Z n).
  { rewrite Hq. field. intros E. rewrite E in HD. discriminate. }
  pose proof (pow2_pos b) as Hpb. pose proof (pow2_pos (a - b)) as Hpab.
  assert (E1 : pow2 (a - b) * pow2 b == pow2 a).
  { rewrite <- pow2_add. replace (a - b + b)%Z with a by lia. reflexivity. }
  pose proof (pow2_succ a) as Ea. pose proof (pow2_succ b) as Eb.
  destruct (Qle_bool (pow2 (a - b)) (n # d)) eqn:Hc.
  - apply Qle_bool_iff in Hc. split; [exact Hc|].
    rewrite pow2_succ. nra.
  - assert (Hlt : n # d < pow2 (a - b)).
    { apply Qnot_le_lt. intros Hle. apply Qle_bool_iff in Hle. congruence. }
    replace (a - b - 1 + 1)%Z with (a - b)%Z by lia. split; [|exact Hlt].
    assert (E2 : pow2 (a - b) == 2 * pow2 (a - b - 1)).
    { rewrite <- pow2_succ. replace (a - b - 1 + 1)%Z with (a - b)%Z by lia. reflexivity. }
    pose proof (pow2_pos (a - b - 1)). nra.
Qed.

Lemma ilog2_unique x e : pow2 e <= x -> x < pow2 (e + 1) -> ilog2 x = e.
Proof.
  intros Hl Hu. assert (Hx : 0 < x) by (pose proof (pow2_pos e); lra).
  destruct (ilog2_spec x Hx) as [Hl' Hu'].
  assert (ilog2 x < e + 1)%Z by (apply pow2_lt_inv; lra).
  assert (e < ilog2 x + 1)%Z by (apply pow2_lt_inv; lra).
  lia.
Qed.

Lemma ilog2_mono x y : 0 < x -> x <= y -> (ilog2 x <= ilog2 y)%Z.
Proof.
  intros Hx Hxy. destruct (ilog2_spec x Hx) as [Hl _].
  destruct (ilog2_spec y ltac:(lra)) as [_ Hu].
  assert (ilog2 x < ilog2 y + 1)%Z by (apply pow2_lt_inv; lra). lia.
Qed.

(** Rounding to the nearest integer. *)
Lemma rnd_even_err x :
  x - (1 # 2) <= inject_Z (rnd_even x) /\ inject_Z (rnd_even x) <= x + (1 # 2).
Proof.
  unfold rnd_even. pose proof (Qfloor_le x) as Hl. pose proof (Qlt_floor x) as Hu.
  rewrite inject_Z_plus in Hu. change (inject_Z 1) with 1 in Hu.
  destruct (Qcompare_spec (x - inject_Z (Qfloor x)) (1 # 2)) as [E|E|E].
  - destruct (Z.even (Qfloor x)); rewrite ?inject_Z_plus; change (inject_Z 1) with 1; lra.
  - lra.
  - rewrite inject_Z_plus. change (inject_Z 1) with 1. lra.
Qed.

Lemma rnd_even_Z n : rnd_even (inject_Z n) = n.
Proof.
  unfold rnd_even. rewrite Qfloor_Z.
  destruct (Qcompare_spec (inject_Z n - inject_Z n) (1 # 2)) as [E|E|E]; try lra; reflexivity.
Qed.

Lemma rnd_even_mono x y : x <= y -> (rnd_even x <= rnd_even y)%Z.
Proof.
  intros Hxy. pose proof (Qfloor_resp_le x y Hxy) as Hf.
  destruct (Z.eq_dec (Qfloor x) (Qfloor y)) as [E|NE].
  - unfold rnd_even. rewrite <- E.
    destruct (Qcompare_spec (x - inject_Z (Qfloor x)) (1 # 2)) as [E1|E1|E1];
    destruct (Qcompare_spec (y - inject_Z (Qfloor x)) (1 # 2)) as [E2|E2|E2];
    try lra; try lia; destruct (Z.even (Qfloor x)); lia.
  - assert (Hlt : (Qfloor x + 1 <= Qfloor y)%Z) by lia.
    assert (rnd_even x <= Qfloor x + 1)%Z.
    { unfold rnd_even. destruct (Qcompare _ _); [destruct (Z.even _)| |]; lia. }
    assert (Qfloor y <= rnd_even y)%Z.
    { unfold rnd_even. destruct (Qcompare _ _); [destruct (Z.even _)| |]; lia. }
    lia.
Qed.

Lemma ilog2_comp x y : 0 < x -> x == y -> ilog2 x = ilog2 y.
Proof.
  intros Hx E. destruct (ilog2_spec x Hx) as [Hl Hu].
  symmetry. apply ilog2_unique; lra.
Qed.

Lemma rnd_even_comp x y : x == y -> rnd_even x = rnd_even y.
Proof.
  intros E. unfold rnd_even. rewrite (Qfloor_comp x y E).
  assert (Hc : Qcompare (x - inject_Z (Qfloor y)) (1 # 2) = Qcompare (y - inject_Z (Qfloor y)) (1 # 2)).
  { apply Qcompare_comp; [rewrite E|]; reflexivity. }
  rewrite Hc. reflexivity.
Qed.

Lemma fexp_comp x y : ~ x == 0 -> x == y -> fexp x = fexp y.
Proof.
  intros Hx E. unfold fexp. f_equal. f_equal. apply ilog2_comp.
  - destruct (Q_dec x 0) as [[H|H]|H]; [| |contradiction]; apply Qabs_case; intros; lra.
  - rewrite E. reflexivity.
Qed.

Lemma fl_comp x y : x == y -> fl x = fl y.
Proof.
  intros E. unfold fl.
  destruct (Qeq_bool x 0) eqn:Hx; destruct (Qeq_bool y 0) eqn:Hy; try reflexivity.
  - apply Qeq_bool_iff in Hx. apply Qeq_bool_neq in Hy. lra.
  - apply Qeq_bool_iff in Hy. apply Qeq_bool_neq in Hx. lra.
  - apply Qeq_bool_neq in Hx. rewrite <- (fexp_comp x y Hx E).
    rewrite (rnd_even_comp (x * pow2 (- fexp x)) (y * pow2 (- fexp x))); [reflexivity|].
    apply Qmult_comp; [exact E | reflexivity].
Qed.

#[global] Instance fl_proper : Proper (Qeq ==> Qeq) fl.
Proof. intros x y E. rewrite (fl_comp x y E). reflexivity. Qed.

Lemma fexp_pos x : 0 < x -> fexp x = Z.max (ilog2 x - 52) (-1074).
Proof.
  intros Hx. unfold fexp. f_equal. f_equal. apply ilog2_comp.
  - apply Qabs_case; intros; lra.
  - apply Qabs_pos. lra.
Qed.

Lemma fl_pos_eq x :
  0 < x -> fl x == inject_Z (rnd_even (x * pow2 (- fexp x))) * pow2 (fexp x).
Proof.
  intros Hx. unfold fl. destruct (Qeq_bool x 0) eqn:E.
  - apply Qeq_bool_iff in E. lra.
  - apply Qred_correct.
Qed.

Lemma fl_0 x : x == 0 -> fl x = 0.
Proof. intros E. unfold fl. apply Qeq_bool_iff in E. rewrite E. reflexivity. Qed.

Lemma rnd_even_nonneg x : 0 <= x -> (0 <= rnd_even x)%Z.
Proof. intros H. rewrite <- (rnd_even_Z 0). apply rnd_even_mono. exact H. Qed.

Lemma fl_nonneg x : 0 <= x -> 0 <= fl x.
Proof.
  intros Hx. destruct (Qeq_bool x 0) eqn:E.
  - apply Qeq_bool_iff in E. rewrite (fl_0 x E). lra.
  - apply Qeq_bool_neq in E. assert (Hp : 0 < x) by lra.
    rewrite (fl_pos_eq x Hp). pose proof (pow2_pos (fexp x)). pose proof (pow2_pos (- fexp x)).
    assert (0 <= rnd_even (x * pow2 (- fexp x)))%Z by (apply rnd_even_nonneg; nra).
    assert (0 <= inject_Z (rnd_even (x * pow2 (- fexp x)))) by (rewrite Zle_Qle in *; assumption).
    nra.
Qed.

(** A power of two above the rounding exponent is a fixed point of the grid. *)
Lemma rnd_pow2 k e : (k <= e)%Z -> inject_Z (rnd_even (pow2 e * pow2 (- k))) * pow2 k == pow2 e.
Proof.
  intros H. rewrite (rnd_even_comp _ (inject_Z (2 ^ (e - k)))).
  - rewrite rnd_even_Z. rewrite <- pow2_Z by lia. rewrite <- pow2_add.
    replace (e - k + k)%Z with e by lia. reflexivity.
  - rewrite <- pow2_Z by lia. rewrite <- pow2_add. replace (e + - k)%Z with (e - k)%Z by lia.
    reflexivity.
Qed.

Lemma scaled_le_mult a b k : a <= b -> a * pow2 k <= b * pow2 k.
Proof. intros H. pose proof (pow2_pos k). nra. Qed.

Lemma inj_rnd_mono x y : x <= y -> inject_Z (rnd_even x) <= inject_Z (rnd_even y).
Proof. intros H. rewrite <- Zle_Qle. apply rnd_even_mono, H. Qed.

Lemma fl_mono_pos x y : 0 < x -> x <= y -> fl x <= fl y.
Proof.
  intros Hx Hxy. assert (Hy : 0 < y) by lra.
  rewrite (fl_pos_eq x Hx), (fl_pos_eq y Hy).
  pose proof (ilog2_mono x y Hx Hxy) as He.
  rewrite (fexp_pos x Hx), (fexp_pos y Hy).
  set (kx := Z.max (ilog2 x - 52) (-1074)). set (ky := Z.max (ilog2 y - 52) (-1074)).
  destruct (Z.eq_dec kx ky) as [E|NE].
  - rewrite <- E. apply scaled_le_mult. apply inj_rnd_mono. apply scaled_le_mult. exact Hxy.
  - assert (Hk : (kx < ky)%Z) by lia.
    assert (Hky : ky = (ilog2 y - 52)%Z) by lia.
    destruct (ilog2_spec x Hx) as [_ Hxu]. destruct (ilog2_spec y Hy) as [Hyl _].
    assert (Hxe : x <= pow2 (ilog2 y)).
    { apply Qle_trans with (pow2 (ilog2 x + 1)); [lra|]. apply pow2_le. lia. }
    apply Qle_trans with (pow2 (ilog2 y)).
    + rewrite <- (rnd_pow2 kx (ilog2 y)) by lia.
      apply scaled_le_mult, inj_rnd_mono, scaled_le_mult, Hxe.
    + rewrite <- (rnd_pow2 ky (ilog2 y)) at 1 by lia.
      apply scaled_le_mult, inj_rnd_mono, scaled_le_mult, Hyl.
Qed.

Lemma fl_mono x y : 0 <= x -> x <= y -> fl x <= fl y.
Proof.
  intros Hx Hxy. destruct (Qeq_bool x 0) eqn:E.
  - apply Qeq_bool_iff in E. rewrite (fl_0 x E). apply fl_nonneg. lra.
  - apply Qeq_bool_neq in E. apply fl_mono_pos; lra.
Qed.

(** Relative error of one rounding in the normal range. *)
Lemma fl_rel_err x :
  pow2 (-1022) <= x ->
  x * (1 - pow2 (-53)) <= fl x /\ fl x <= x * (1 + pow2 (-53)).
Proof.
  intros Hn. assert (Hx : 0 < x) by (pose proof (pow2_pos (-1022)); lra).
  rewrite (fl_pos_eq x Hx). rewrite (fexp_pos x Hx).
  destruct (ilog2_spec x Hx) as [Hl Hu].
  assert (He : (-1022 <= ilog2 x)%Z).
  { assert (-1022 < ilog2 x + 1)%Z by (apply pow2_lt_inv; lra). lia. }
  replace (Z.max (ilog2 x - 52) (-1074)) with (ilog2 x - 52)%Z by lia.
  set (k := (ilog2 x - 52)%Z).
  destruct (rnd_even_err (x * pow2 (- k))) as [Hrl Hru].
  set (m := inject_Z (rnd_even (x * pow2 (- k)))) in *.
  pose proof (pow2_pos k) as Hk. pose proof (pow2_opp k) as Hinv.
  assert (Ek : pow2 k == pow2 (ilog2 x) * pow2 (-53) * 2).
  { unfold k. replace (ilog2 x - 52)%Z with (ilog2 x + (-53 + 1))%Z by lia.
    rewrite pow2_add, pow2_succ. ring. }
  pose proof (pow2_pos (-53)) as H53.
  assert (Hhalf : (1 # 2) * pow2 k <= x * pow2 (-53)) by nra.
  assert (Hxs : x * pow2 (- k) * pow2 k == x).
  { rewrite <- Qmult_assoc, Hinv. ring. }
  split; nra.
Qed.

(** Small integers are represented exactly. *)
Lemma fl_int n : (0 <= n < 2 ^ 53)%Z -> fl (inject_Z n) == inject_Z n.
Proof.
  intros [H0 Hn]. destruct (Z.eq_dec n 0%Z) as [->|NZ]; [reflexivity|].
  assert (Hp : 0 < inject_Z n) by (change (inject_Z 0 < inject_Z n); rewrite <- Zlt_Qlt; lia).
  rewrite (fl_pos_eq _ Hp), (fexp_pos _ Hp).
  destruct (ilog2_spec _ Hp) as [Hl Hu].
  assert (Hlo : (0 <= ilog2 (inject_Z n))%Z).
  { assert (0 < ilog2 (inject_Z n) + 1)%Z; [|lia]. apply pow2_lt_inv.
    change (pow2 0) with (inject_Z 1). apply Qle_lt_trans with (inject_Z n); [|exact Hu].
    rewrite <- Zle_Qle. lia. }
  assert (Hhi : (ilog2 (inject_Z n) < 53)%Z).
  { apply pow2_lt_inv. apply Qle_lt_trans with (inject_Z n); [exact Hl|].
    rewrite pow2_Z by lia. rewrite <- Zlt_Qlt. exact Hn. }
  set (e := ilog2 (inject_Z n)) in *.
  replace (Z.max (e - 52) (-1074)) with (e - 52)%Z by lia.
  rewrite (rnd_even_comp _ (inject_Z (n * 2 ^ (52 - e)))).
  - rewrite rnd_even_Z, inject_Z_mult, <- pow2_Z by lia.
    rewrite <- Qmult_assoc, <- pow2_add. replace (52 - e + (e - 52))%Z with 0%Z by lia.
    change (pow2 0) with 1. ring.
  - rewrite inject_Z_mult, <- pow2_Z by lia. replace (- (e - 52))%Z with (52 - e)%Z by lia.
    reflexivity.
Qed.

Lemma pow2_minus_53 : pow2 (-53) == 1 # 9007199254740992.
Proof. reflexivity. Qed.

Lemma int_of_float_nonneg_bounds p (a b : Z) :
  0 <= p -> inject_Z a - 1 < p -> p < inject_Z b + 1 ->
  (a - 1 <= int_of_float p <= b)%Z.
Proof.
  intros H0 Ha Hb. unfold int_of_float.
  apply Qle_bool_iff in H0. rewrite H0.
  pose proof (Qfloor_le p) as Hl. pose proof (Qlt_floor p) as Hu.
  rewrite inject_Z_plus in Hu. change (inject_Z 1) with 1 in Hu.
  assert (H1 : inject_Z (Qfloor p) < inject_Z (b + 1)).
  { rewrite inject_Z_plus. change (inject_Z 1) with 1. lra. }
  assert (H2 : inject_Z a < inject_Z (Qfloor p + 2)).
  { rewrite inject_Z_plus. change (inject_Z 2) with 2. lra. }
  rewrite <- Zlt_Qlt in H1, H2. lia.
Qed.

(** One side of the target size: [int(d * scale)] with
    [scale = 800 / m], for a side [d] of an image whose longer side is
    [m].  Truncation of the twice-rounded product lands on the floor of
    the exact quotient or just below it. *)
Lemma scaled_side_bounds d m :
  (800 < m < 2 ^ 31)%Z -> (0 <= d <= m)%Z ->
  exists scale, py_truediv 800 m = Ok scale /\
    (800 * d / m - 1 <= int_of_float (fmul (float_of_int d) scale) <= 800 * d / m)%Z.
Proof.
  intros [Hm Hm31] [Hd0 Hdm]. unfold py_truediv.
  destruct (Z.eqb_spec m 0) as [->|_]; [lia|].
  eexists. split; [reflexivity|]. unfold fmul, float_of_int.
  set (M := inject_Z m). set (D := inject_Z d).
  assert (HM : 800 < M) by (change 800 with (inject_Z 800); unfold M; rewrite <- Zlt_Qlt; lia).
  assert (HM31 : M < 2147483648).
  { change 2147483648 with (inject_Z (2 ^ 31)). unfold M. rewrite <- Zlt_Qlt. lia. }
  assert (HD0 : 0 <= D) by (change 0 with (inject_Z 0); unfold D; rewrite <- Zle_Qle; lia).
  assert (HDM : D <= M) by (unfold D, M; rewrite <- Zle_Qle; lia).
  set (X0 := inject_Z 800 / M).
  assert (EX0 : X0 * M == 800).
  { unfold X0. change (inject_Z 800) with 800. field. lra. }
  assert (HX0 : pow2 (-1022) <= X0).
  { apply Qle_trans with (pow2 (-31)); [apply pow2_le; lia|].
    change (pow2 (-31)) with (1 # 2147483648). nra. }
  destruct (fl_rel_err X0 HX0) as [Hsl Hsu].
  set (s := fl X0) in *. rewrite pow2_minus_53 in Hsl, Hsu.
  rewrite (fl_comp (fl D * s) (D * s)).
  2:{ unfold D. rewrite fl_int by lia. reflexivity. }
  pose proof (Z.div_mod (800 * d) m ltac:(lia)) as Hdiv.
  pose proof (Z.mod_pos_bound (800 * d) m ltac:(lia)) as Hmod.
  set (n := (800 * d / m)%Z) in *. set (r := ((800 * d) mod m)%Z) in *.
  assert (Hn0 : (0 <= n)%Z) by (apply Z.div_pos; lia).
  set (Nq := inject_Z n).
  assert (HN0 : 0 <= Nq) by (change 0 with (inject_Z 0); unfold Nq; rewrite <- Zle_Qle; lia).
  assert (Elo : Nq * M <= 800 * D).
  { unfold Nq, M, D. change 800 with (inject_Z 800). rewrite <- !inject_Z_mult, <- Zle_Qle. lia. }
  assert (Ehi : 800 * D + 1 <= (Nq + 1) * M).
  { unfold Nq, M, D. change 800 with (inject_Z 800). change 1 with (inject_Z 1).
    rewrite <- !inject_Z_plus, <- !inject_Z_mult, <- !inject_Z_plus, <- Zle_Qle. lia. }
  destruct (Z.eq_dec d 0%Z) as [Ed|Nd].
  - assert (ED : D * s == 0) by (unfold D; rewrite Ed; change (inject_Z 0) with 0; ring).
    rewrite (fl_0 _ ED). assert (n = 0%Z) by (unfold n; rewrite Ed; reflexivity).
    change (int_of_float 0) with 0%Z. lia.
  - assert (HD1 : 1 <= D).
    { change 1 with (inject_Z 1). unfold D. rewrite <- Zle_Qle. lia. }
    set (X := D * X0).
    assert (EX : X * M == 800 * D) by (unfold X; nra).
    assert (HX : 0 <= X /\ X <= 800) by (split; nra).
    assert (HPl : X * (1 - (1 # 9007199254740992)) <= D * s) by (unfold X; nra).
    assert (HPu : D * s <= X * (1 + (1 # 9007199254740992))) by (unfold X; nra).
    assert (HPn : pow2 (-1022) <= D * s).
    { apply Qle_trans with (pow2 (-32)); [apply pow2_le; lia|].
      change (pow2 (-32)) with (1 # 4294967296). nra. }
    destruct (fl_rel_err (D * s) HPn) as [Hpl Hpu]. rewrite pow2_minus_53 in Hpl, Hpu.
    set (p := fl (D * s)) in *.
    assert (Hp1 : X - (1 # 1000000000000) <= p) by nra.
    assert (Hp2 : p <= X + (1 # 1000000000000)) by nra.
    assert (HXn : Nq <= X) by nra.
    assert (HXn1 : X + (1 # 2147483648) <= Nq + 1) by nra.
    apply int_of_float_nonneg_bounds; fold Nq; lra.
Qed.

End Float64Facts.

Import Float64Facts.

(** ** Element-wise routines *)

Lemma nd_map_lookup {A B} (f : A -> B) (a : ndarray A) (i : nat) :
  data (nd_map f a) !! i = f <$> (data a !! i).
Proof. apply list_lookup_fmap. Qed.

Lemma nd_map_length {A B} (f : A -> B) (a : ndarray A) :
  length (data (nd_map f a)) = length (data a).
Proof. apply length_fmap. Qed.

Lemma in_bounds_iff lo hi v : in_bounds lo hi v = true <-> lo <= v <= hi.
Proof. unfold in_bounds. rewrite andb_true_iff, !Z.leb_le. tauto. Qed.

Lemma inRange_px_binary lo hi p : inRange_px lo hi p = 0 \/ inRange_px lo hi p = 255.
Proof. unfold inRange_px. destruct (_ && _); auto. Qed.

Lemma inRange_px_selected lo hi p :
  inRange_px lo hi p = 255 <->
  ch0 lo <= ch0 p <= ch0 hi /\ ch1 lo <= ch1 p <= ch1 hi /\ ch2 lo <= ch2 p <= ch2 hi.
Proof.
  unfold inRange_px.
  destruct (in_bounds (ch0 lo) (ch0 hi) (ch0 p)) eqn:E0;
    destruct (in_bounds (ch1 lo) (ch1 hi) (ch1 p)) eqn:E1;
    destruct (in_bounds (ch2 lo) (ch2 hi) (ch2 p)) eqn:E2; cbn;
    rewrite <- !in_bounds_iff, E0, E1, E2; intuition congruence.
Qed.

Lemma and_px_diag p : and_px p p = p.
Proof. destruct p. unfold and_px. cbn. rewrite !Z.land_diag. reflexivity. Qed.

Lemma and_masked_lookup s1 s2 m i :
  and_masked s1 s2 m !! i =
  p ← s1 !! i; q ← s2 !! i; v ← m !! i;
  Some (if v =? 0 then black else and_px p q).
Proof.
  revert s2 m i. induction s1 as [|p s1 IH]; intros s2 m i; [reflexivity|].
  destruct s2 as [|q s2].
  { cbn [and_masked]. rewrite !lookup_nil. destruct ((p :: s1) !! i); reflexivity. }
  destruct m as [|v m].
  { cbn [and_masked]. rewrite !lookup_nil.
    destruct ((p :: s1) !! i); cbn; [|reflexivity].
    destruct ((q :: s2) !! i); reflexivity. }
  destruct i as [|i]; [reflexivity|]. cbn [and_masked]. rewrite !lookup_cons. apply IH.
Qed.

Lemma and_masked_length s m :
  length m = length s -> length (and_masked s s m) = length s.
Proof.
  revert m. induction s as [|p s IH]; intros [|v m] H; cbn in *; try congruence.
  f_equal. apply IH. congruence.
Qed.

(** On a mask of zeros and 255s, [np.sum(mask > 0)] counts the 255s. *)
Lemma count_true_gt0 (l : list Z) :
  (forall v, v ∈ l -> v = 0 \/ v = 255) ->
  count_true ((fun v => 0 <? v) <$> l) = count_eq 255 l.
Proof.
  induction l as [|x l IH]; intros H; [reflexivity|]. cbn.
  rewrite IH by (intros v Hv; apply H; right; exact Hv).
  destruct (H x ltac:(left)) as [-> | ->]; reflexivity.
Qed.

Lemma count_true_nonneg l : 0 <= count_true l.
Proof. induction l as [|[] l IH]; cbn; lia. Qed.

Lemma count_true_le_length l : count_true l <= Z.of_nat (length l).
Proof. induction l as [|[] l IH]; cbn [count_true length]; lia. Qed.

(** A wider box selects at least the pixels of a narrower one. *)
Lemma inRange_px_widen lo hi lo' hi' p :
  ch0 lo' <= ch0 lo -> ch1 lo' <= ch1 lo -> ch2 lo' <= ch2 lo ->
  ch0 hi <= ch0 hi' -> ch1 hi <= ch1 hi' -> ch2 hi <= ch2 hi' ->
  inRange_px lo hi p = 255 -> inRange_px lo' hi' p = 255.
Proof. rewrite !inRange_px_selected. lia. Qed.

Lemma count_selected_widen lo hi lo' hi' (l : list pixel) :
  ch0 lo' <= ch0 lo -> ch1 lo' <= ch1 lo -> ch2 lo' <= ch2 lo ->
  ch0 hi <= ch0 hi' -> ch1 hi <= ch1 hi' -> ch2 hi <= ch2 hi' ->
  count_true ((fun v => 0 <? v) <$> (inRange_px lo hi <$> l)) <=
  count_true ((fun v => 0 <? v) <$> (inRange_px lo' hi' <$> l)).
Proof.
  intros H0 H1 H2 H3 H4 H5. induction l as [|p l IH]; [reflexivity|]. cbn.
  pose proof (inRange_px_widen lo hi lo' hi' p H0 H1 H2 H3 H4 H5) as Hw.
  destruct (inRange_px_binary lo hi p) as [E|E]; rewrite E.
  - destruct (inRange_px_binary lo' hi' p) as [E'|E']; rewrite E'; cbn; lia.
  - rewrite (Hw E). cbn. lia.
Qed.

(** ** [segment_hsv] on a non-empty image *)

Lemma segment_hsv_eq (BGR2HSV : pixel -> pixel) (img_bgr : image)
    (h_min h_max s_min s_max v_min v_max : Z) :
  is_empty img_bgr = false ->
  let mask := inRange (nd_map BGR2HSV img_bgr) (Px h_min s_min v_min) (Px h_max s_max v_max) in
  segment_hsv BGR2HSV img_bgr h_min h_max s_min s_max v_min v_max =
  Ok (mask,
      NdArray (shape0 img_bgr) (shape1 img_bgr)
              (and_masked (data img_bgr) (data img_bgr) (data mask)),
      fdiv (float_of_int (np_sum (np_gt0 mask))) (float_of_int 255)).
Proof.
  intros Hne. unfold segment_hsv, cvtColor_BGR2HSV. rewrite Hne. cbn.
  unfold bitwise_and, same_shape. cbn. rewrite !Z.eqb_refl. reflexivity.
Qed.

Lemma segment_hsv_empty (BGR2HSV : pixel -> pixel) (img_bgr : image)
    (h_min h_max s_min s_max v_min v_max : Z) :
  is_empty img_bgr = true ->
  segment_hsv BGR2HSV img_bgr h_min h_max s_min s_max v_min v_max =
  Raise (CvError "cvtColor: empty source").
Proof. intros He. unfold segment_hsv, cvtColor_BGR2HSV. rewrite He. reflexivity. Qed.

Lemma wrap_int32_fits z : fits_int32 z -> wrap_int32 z = z.
Proof.
  unfold fits_int32, wrap_int32. intros H. rewrite Z.mod_small by lia. lia.
Qed.

Lemma narrow_int32_fits a b c :
  fits_int32 a -> fits_int32 b -> fits_int32 c -> narrow_int32 (Px a b c) = Px a b c.
Proof.
  intros Ha Hb Hc. unfold narrow_int32. cbn [ch0 ch1 ch2].
  rewrite !wrap_int32_fits by assumption. reflexivity.
Qed.

Lemma inRange_lookup (src : image) lo hi i :
  data (inRange src lo hi) !! i
  = inRange_px (narrow_int32 lo) (narrow_int32 hi) <$> (data src !! i).
Proof. apply nd_map_lookup. Qed.

Lemma inRange_binary (src : image) lo hi v :
  v ∈ data (inRange src lo hi) -> v = 0 \/ v = 255.
Proof.
  unfold inRange, nd_map. cbn. intros Hv.
  apply list_elem_of_fmap in Hv as (p & -> & _). apply inRange_px_binary.
Qed.

(** ** The range segmenter *)

(** C4. On every non-empty image and for bounds in the 32-bit range the
    call keeps (the sliders give 0 to 179 and 0 to 255), [segment_hsv]
    returns a mask whose element at a pixel is 255 exactly when the hue,
    the saturation and the value of the converted pixel all lie between
    their bounds, ends included; the test is linear, so a channel whose
    minimum exceeds its maximum leaves the whole mask at 0. *)
Theorem mask_selects_inclusive_box (BGR2HSV : pixel -> pixel) (img_bgr : image)
    (h_min h_max s_min s_max v_min v_max : Z) :
  is_empty img_bgr = false ->
  fits_int32 h_min -> fits_int32 h_max ->
  fits_int32 s_min -> fits_int32 s_max ->
  fits_int32 v_min -> fits_int32 v_max ->
  exists mask result pixel_count,
    segment_hsv BGR2HSV img_bgr h_min h_max s_min s_max v_min v_max
      = Ok (mask, result, pixel_count) /\
    (forall i p, data img_bgr !! i = Some p ->
       exists v, data mask !! i = Some v /\
         (v = 255 <->
          h_min <= ch0 (BGR2HSV p) <= h_max /\
          s_min <= ch1 (BGR2HSV p) <= s_max /\
          v_min <= ch2 (BGR2HSV p) <= v_max)) /\
    (h_max < h_min \/ s_max < s_min \/ v_max < v_min ->
     forall i v, data mask !! i = Some v -> v = 0).
Proof.
  intros Hne Fh Fh' Fs Fs' Fv Fv'.
  do 3 eexists. split; [apply segment_hsv_eq, Hne|]. split.
  - intros i p Hp. rewrite inRange_lookup, nd_map_lookup, Hp. cbn.
    rewrite !narrow_int32_fits by assumption.
    eexists. split; [reflexivity|]. apply inRange_px_selected.
  - intros Hinv i v. rewrite inRange_lookup, nd_map_lookup.
    rewrite !narrow_int32_fits by assumption.
    destruct (data img_bgr !! i) as [p|]; cbn; [|discriminate].
    intros [= <-].
    destruct (inRange_px_binary (Px h_min s_min v_min) (Px h_max s_max v_max) (BGR2HSV p))
      as [E|E]; [exact E|].
    apply inRange_px_selected in E. cbn in E. lia.
Qed.

Lemma mask_selects_inclusive_box_witness :
  is_empty scenario_image = false /\
  fits_int32 30 /\ fits_int32 85 /\ fits_int32 50 /\ fits_int32 255 /\
  fits_int32 50 /\ fits_int32 255 /\
  exists mask result pixel_count,
    segment_hsv BGR2HSV_8u scenario_image 30 85 50 255 50 255
      = Ok (mask, result, pixel_count) /\
    (forall i p, data scenario_image !! i = Some p ->
       exists v, data mask !! i = Some v /\
         (v = 255 <->
          30 <= ch0 (BGR2HSV_8u p) <= 85 /\
          50 <= ch1 (BGR2HSV_8u p) <= 255 /\
          50 <= ch2 (BGR2HSV_8u p) <= 255)) /\
    (85 < 30 \/ 255 < 50 \/ 255 < 50 ->
     forall i v, data mask !! i = Some v -> v = 0).
Proof.
  split; [reflexivity|].
  repeat (split; [unfold fits_int32; lia|]).
  apply (mask_selects_inclusive_box BGR2HSV_8u scenario_image 30 85 50 255 50 255);
    first [reflexivity | unfold fits_int32; lia].
Defined.

(** Outside the 32-bit range the bounds wrap: an upper hue bound of
    [2^31] acts as [-2^31] and selects nothing; a lower value bound of
    [-2^32 + 100] acts as 100 and drops the dark fourth pixel that a bound
    of 0 selects; bounds from [2^32] to [2^32 + 255] act as 0 to 255. *)
Example upper_bound_two_to_31_selects_nothing :
  segment_hsv BGR2HSV_8u scenario_image 0 (2 ^ 31) 0 255 0 255
  = Ok (NdArray 2 2 [0; 0; 0; 0], NdArray 2 2 [black; black; black; black], 0%Q).
Proof. vm_compute. reflexivity. Qed.

Example lower_bound_wraps_to_100 :
  (exists result pixel_count,
     segment_hsv BGR2HSV_8u scenario_image 0 179 0 255 0 255
     = Ok (NdArray 2 2 [255; 255; 255; 255], result, pixel_count)) /\
  (exists result pixel_count,
     segment_hsv BGR2HSV_8u scenario_image 0 179 0 255 (- 2 ^ 32 + 100) 255
     = Ok (NdArray 2 2 [255; 255; 255; 0], result, pixel_count)).
Proof. split; do 2 eexists; vm_compute; reflexivity. Qed.

Example bounds_above_two_to_32_act_as_0_to_255 :
  exists result pixel_count,
    segment_hsv BGR2HSV_8u scenario_image 0 179 0 255 (2 ^ 32) (2 ^ 32 + 255)
    = Ok (NdArray 2 2 [255; 255; 255; 255], result, pixel_count).
Proof. do 2 eexists. vm_compute. reflexivity. Qed.

(** C5. On every non-empty image the composite [segment_hsv] returns is
    [bitwise_and(img, img, mask=mask)] for the mask it returns: it has the
    shape of the image and one pixel per pixel of the image, is black
    where the mask is 0 and carries the source pixel, channel for channel,
    where the mask is 255.  The same holds of the composite of the image
    with any mask of its shape. *)
Theorem composite_black_or_source (BGR2HSV : pixel -> pixel) (img_bgr : image)
    (h_min h_max s_min s_max v_min v_max : Z) (any_mask : mask_t) :
  is_empty img_bgr = false ->
  same_shape img_bgr any_mask = true ->
  (exists mask result pixel_count,
     segment_hsv BGR2HSV img_bgr h_min h_max s_min s_max v_min v_max
       = Ok (mask, result, pixel_count) /\
     bitwise_and img_bgr img_bgr mask = Ok result /\
     shape0 result = shape0 img_bgr /\ shape1 result = shape1 img_bgr /\
     length (data result) = length (data img_bgr) /\
     forall i p, data img_bgr !! i = Some p ->
       exists v, data mask !! i = Some v /\
         (v = 0 -> data result !! i = Some black) /\
         (v = 255 -> data result !! i = Some p)) /\
  (exists out,
     bitwise_and img_bgr img_bgr any_mask = Ok out /\
     shape0 out = shape0 img_bgr /\ shape1 out = shape1 img_bgr /\
     forall i p v, data img_bgr !! i = Some p -> data any_mask !! i = Some v ->
       (v = 0 -> data out !! i = Some black) /\
       (v = 255 -> data out !! i = Some p)).
Proof.
  intros Hne Hs. split.
  - do 3 eexists. split; [apply segment_hsv_eq, Hne|]. cbv zeta. split.
    { unfold bitwise_and, same_shape. cbn [shape0 shape1 inRange nd_map].
      rewrite !Z.eqb_refl. reflexivity. }
    do 2 (split; [reflexivity|]). split.
    { cbn [data]. apply and_masked_length. unfold inRange. rewrite !nd_map_length.
      reflexivity. }
    intros i p Hp. rewrite inRange_lookup, nd_map_lookup, Hp. cbn [fmap option_fmap option_map].
    eexists. split; [reflexivity|]. cbn [data].
    rewrite and_masked_lookup, inRange_lookup, nd_map_lookup, Hp. cbn.
    split; intros ->; cbn; [reflexivity|]. rewrite and_px_diag. reflexivity.
  - unfold bitwise_and. unfold same_shape at 1. rewrite !Z.eqb_refl, Hs. cbn.
    eexists. split; [reflexivity|]. cbn. do 2 (split; [reflexivity|]).
    intros i p v Hp Hv. rewrite and_masked_lookup, Hp, Hv. cbn.
    split; intros ->; cbn; [reflexivity|]. rewrite and_px_diag. reflexivity.
Qed.

Lemma composite_black_or_source_witness :
  is_empty scenario_image = false /\
  same_shape scenario_image (NdArray 2 2 [255; 0; 0; 255]) = true /\
  (exists mask result pixel_count,
     segment_hsv BGR2HSV_8u scenario_image 30 85 50 255 50 255
       = Ok (mask, result, pixel_count) /\
     bitwise_and scenario_image scenario_image mask = Ok result /\
     shape0 result = shape0 scenario_image /\ shape1 result = shape1 scenario_image /\
     length (data result) = length (data scenario_image) /\
     forall i p, data scenario_image !! i = Some p ->
       exists v, data mask !! i = Some v /\
         (v = 0 -> data result !! i = Some black) /\
         (v = 255 -> data result !! i = Some p)) /\
  (exists out,
     bitwise_and scenario_image scenario_image (NdArray 2 2 [255; 0; 0; 255]) = Ok out /\
     shape0 out = shape0 scenario_image /\ shape1 out = shape1 scenario_image /\
     forall i p v, data scenario_image !! i = Some p ->
       data (NdArray 2 2 [255; 0; 0; 255]) !! i = Some v ->
       (v = 0 -> data out !! i = Some black) /\
       (v = 255 -> data out !! i = Some p)).
Proof.
  split; [reflexivity|]. split; [reflexivity|].
  apply (composite_black_or_source BGR2HSV_8u scenario_image 30 85 50 255 50 255
           (NdArray 2 2 [255; 0; 0; 255])); reflexivity.
Defined.

(** C6. On every non-empty image the mask [segment_hsv] returns has the
    rows and columns of the image, one element per pixel, and every
    element is 0 or 255. *)
Theorem mask_is_binary_and_image_sized (BGR2HSV : pixel -> pixel) (img_bgr : image)
    (h_min h_max s_min s_max v_min v_max : Z) :
  is_empty img_bgr = false ->
  exists mask result pixel_count,
    segment_hsv BGR2HSV img_bgr h_min h_max s_min s_max v_min v_max
      = Ok (mask, result, pixel_count) /\
    shape0 mask = shape0 img_bgr /\ shape1 mask = shape1 img_bgr /\
    length (data mask) = length (data img_bgr) /\
    forall i v, data mask !! i = Some v -> v = 0 \/ v = 255.
Proof.
  intros Hne. do 3 eexists. split; [apply segment_hsv_eq, Hne|].
  do 2 (split; [reflexivity|]). split.
  - unfold inRange. rewrite !nd_map_length. reflexivity.
  - intros i v Hv. eapply inRange_binary, list_elem_of_lookup_2, Hv.
Qed.

Lemma mask_is_binary_and_image_sized_witness :
  is_empty scenario_image = false /\
  exists mask result pixel_count,
    segment_hsv BGR2HSV_8u scenario_image 30 85 50 255 50 255
      = Ok (mask, result, pixel_count) /\
    shape0 mask = shape0 scenario_image /\ shape1 mask = shape1 scenario_image /\
    length (data mask) = length (data scenario_image) /\
    forall i v, data mask !! i = Some v -> v = 0 \/ v = 255.
Proof.
  split; [reflexivity|].
  apply (mask_is_binary_and_image_sized BGR2HSV_8u scenario_image 30 85 50 255 50 255).
  reflexivity.
Defined.

(** ** The pixel count *)

Lemma fdiv_mono_num (a b c : Q) :
  (0 <= a)%Q -> (a <= b)%Q -> (0 < c)%Q -> (fdiv a c <= fdiv b c)%Q.
Proof.
  intros Ha Hab Hc. unfold fdiv, Qdiv.
  pose proof (Qinv_lt_0_compat c Hc) as Hi.
  apply fl_mono; nra.
Qed.

Lemma float_of_int_mono (m n : Z) :
  0 <= m <= n -> (float_of_int m <= float_of_int n)%Q.
Proof.
  intros [H0 Hmn]. unfold float_of_int. apply fl_mono.
  - change 0%Q with (inject_Z 0). rewrite <- Zle_Qle. exact H0.
  - rewrite <- Zle_Qle. exact Hmn.
Qed.

Lemma float_of_int_nonneg (n : Z) : 0 <= n -> (0 <= float_of_int n)%Q.
Proof.
  intros H. unfold float_of_int. apply fl_nonneg.
  change 0%Q with (inject_Z 0). rewrite <- Zle_Qle. exact H.
Qed.

(** What [segment_hsv] returns as [pixel_count]: the number of mask
    elements equal to 255, converted to binary64 and divided by 255. *)
Lemma pixel_count_is_count_over_255 (BGR2HSV : pixel -> pixel) (img_bgr : image)
    (h_min h_max s_min s_max v_min v_max : Z) mask result pixel_count :
  segment_hsv BGR2HSV img_bgr h_min h_max s_min s_max v_min v_max
    = Ok (mask, result, pixel_count) ->
  pixel_count = fdiv (float_of_int (count_eq 255 (data mask))) (float_of_int 255).
Proof.
  destruct (is_empty img_bgr) eqn:He.
  - rewrite segment_hsv_empty by exact He. discriminate.
  - rewrite segment_hsv_eq by exact He. cbv zeta. intros [= <- _ <-].
    unfold np_sum, np_gt0, nd_map. cbn [data]. rewrite count_true_gt0; [reflexivity|].
    intros v Hv. eapply inRange_binary, Hv.
Qed.

(** C7. For a fixed non-empty image and bounds in the 32-bit range the
    call keeps, a range that contains another on all six bounds selects at
    least as many mask elements, and the [pixel_count] returned for it is
    at least the one returned for the narrower range. *)
Theorem wider_range_never_lowers_count (BGR2HSV : pixel -> pixel) (img_bgr : image)
    (h_min h_max s_min s_max v_min v_max : Z)
    (h_min' h_max' s_min' s_max' v_min' v_max' : Z) :
  is_empty img_bgr = false ->
  Forall fits_int32 [h_min; h_max; s_min; s_max; v_min; v_max] ->
  Forall fits_int32 [h_min'; h_max'; s_min'; s_max'; v_min'; v_max'] ->
  h_min' <= h_min -> h_max <= h_max' ->
  s_min' <= s_min -> s_max <= s_max' ->
  v_min' <= v_min -> v_max <= v_max' ->
  exists mask result pixel_count mask' result' pixel_count',
    segment_hsv BGR2HSV img_bgr h_min h_max s_min s_max v_min v_max
      = Ok (mask, result, pixel_count) /\
    segment_hsv BGR2HSV img_bgr h_min' h_max' s_min' s_max' v_min' v_max'
      = Ok (mask', result', pixel_count') /\
    count_eq 255 (data mask) <= count_eq 255 (data mask') /\
    (pixel_count <= pixel_count')%Q.
Proof.
  intros Hne Hfit Hfit' Hh Hh' Hs Hs' Hv Hv'.
  repeat match goal with
         | H : Forall fits_int32 (_ :: _) |- _ => apply Forall_cons in H as [? H]
         end.
  do 6 eexists.
  split; [apply segment_hsv_eq, Hne|]. split; [apply segment_hsv_eq, Hne|].
  assert (Hc :
    count_true ((fun v => 0 <? v) <$>
      data (inRange (nd_map BGR2HSV img_bgr) (Px h_min s_min v_min) (Px h_max s_max v_max)))
    <= count_true ((fun v => 0 <? v) <$>
      data (inRange (nd_map BGR2HSV img_bgr) (Px h_min' s_min' v_min') (Px h_max' s_max' v_max')))).
  { unfold inRange, nd_map. cbn [data]. rewrite !narrow_int32_fits by assumption.
    apply count_selected_widen; cbn; assumption. }
  split.
  - rewrite <- !count_true_gt0 by (intros v Hin; eapply inRange_binary, Hin). exact Hc.
  - unfold np_sum, np_gt0, nd_map. cbn [data]. apply fdiv_mono_num.
    + apply float_of_int_nonneg, count_true_nonneg.
    + apply float_of_int_mono. split; [apply count_true_nonneg | exact Hc].
    + reflexivity.
Qed.

Lemma wider_range_never_lowers_count_witness :
  is_empty scenario_image = false /\
  Forall fits_int32 [40; 80; 60; 250; 60; 250] /\
  Forall fits_int32 [30; 85; 50; 255; 5; 255] /\
  30 <= 40 /\ 80 <= 85 /\ 50 <= 60 /\ 250 <= 255 /\ 5 <= 60 /\ 250 <= 255 /\
  exists mask result pixel_count mask' result' pixel_count',
    segment_hsv BGR2HSV_8u scenario_image 40 80 60 250 60 250
      = Ok (mask, result, pixel_count) /\
    segment_hsv BGR2HSV_8u scenario_image 30 85 50 255 5 255
      = Ok (mask', result', pixel_count') /\
    count_eq 255 (data mask) <= count_eq 255 (data mask') /\
    (pixel_count <= pixel_count')%Q.
Proof.
  assert (F1 : Forall fits_int32 [40; 80; 60; 250; 60; 250])
    by (repeat constructor; unfold fits_int32; lia).
  assert (F2 : Forall fits_int32 [30; 85; 50; 255; 5; 255])
    by (repeat constructor; unfold fits_int32; lia).
  split; [reflexivity|]. split; [exact F1|]. split; [exact F2|].
  repeat (split; [lia|]).
  apply (wider_range_never_lowers_count BGR2HSV_8u scenario_image
           40 80 60 250 60 250 30 85 50 255 5 255);
    first [reflexivity | exact F1 | exact F2 | lia].
Defined.

(** Whenever at least one pixel is selected, the returned [pixel_count]
    is below the number of selected pixels. *)
Lemma pixel_count_below_count (c : Z) :
  1 <= c < 2 ^ 53 ->
  (fdiv (float_of_int c) (float_of_int 255) < inject_Z c)%Q.
Proof.
  intros [H1 Hc]. unfold fdiv, float_of_int.
  assert (HC : (1 <= inject_Z c)%Q).
  { change 1%Q with (inject_Z 1). rewrite <- Zle_Qle. exact H1. }
  rewrite (fl_comp (fl (inject_Z c) / fl (inject_Z 255)) (inject_Z c / 255)).
  2:{ rewrite !fl_int by lia. reflexivity. }
  assert (Hn : (pow2 (-1022) <= inject_Z c / 255)%Q).
  { apply Qle_trans with (pow2 (-8)); [apply pow2_le; lia|].
    change (pow2 (-8)) with (1 # 256)%Q. unfold Qdiv.
    change (/ 255)%Q with (1 # 255)%Q. lra. }
  destruct (fl_rel_err _ Hn) as [_ Hu]. rewrite pow2_minus_53 in Hu.
  unfold Qdiv in *. change (/ 255)%Q with (1 # 255)%Q in *. lra.
Qed.

(** C1. On a one-pixel image whose pixel lies in the range, the mask
    holds one 255, yet [segment_hsv] returns [pixel_count = 1/255] (rounded
    to binary64), and [main_app] shows a count of 0 and a percentage of
    about 0.39 where one selected pixel out of one is 100 percent. *)
Theorem pixel_count_is_count_divided_by_255 :
  segment_hsv BGR2HSV_8u green_pixel_image 30 85 50 255 50 255
    = Ok (NdArray 1 1 [255], NdArray 1 1 [Px 43 200 43],
          (282578800148737 # 72057594037927936)%Q) /\
  count_eq 255 [255] = 1 /\
  main_app_results BGR2HSV_8u green_pixel_image 30 85 50 255 50 255
    = Ok [StImage (NdArray 1 1 [Px 43 200 43]);
          StImage (NdArray 1 1 [Px 43 200 43]);
          StMetric "Total Piksel Vegetasi Terdeteksi (Area Hijau)" (MInt 0);
          StMetric "Persentase Area Vegetasi"
                   (MFloat (7064470003718425 # 18014398509481984)%Q);
          StImageMask (NdArray 1 1 [255])].
Proof. repeat split; vm_compute; reflexivity. Qed.

(** C3. On the 2x2 scenario with the default range the mask is
    [255, 0, 0, 0], one element selected, but the returned [pixel_count] is
    [1/255] and the percentage shown is about 0.098, not 1 and 25. *)
Theorem scenario_mask_right_count_wrong :
  nd_map BGR2HSV_8u scenario_image
    = NdArray 2 2 [Px 60 200 200; Px 10 200 200; Px 60 10 200; Px 60 204 10] /\
  segment_hsv BGR2HSV_8u scenario_image 30 85 50 255 50 255
    = Ok (NdArray 2 2 [255; 0; 0; 0],
          NdArray 2 2 [Px 43 200 43; black; black; black],
          (282578800148737 # 72057594037927936)%Q) /\
  count_eq 255 [255; 0; 0; 0] = 1 /\
  main_app_results BGR2HSV_8u scenario_image 30 85 50 255 50 255
    = Ok [StImage (NdArray 2 2 [Px 43 200 43; Px 200 95 43; Px 192 200 192; Px 2 10 2]);
          StImage (NdArray 2 2 [Px 43 200 43; black; black; black]);
          StMetric "Total Piksel Vegetasi Terdeteksi (Area Hijau)" (MInt 0);
          StMetric "Persentase Area Vegetasi"
                   (MFloat (7064470003718425 # 72057594037927936)%Q);
          StImageMask (NdArray 2 2 [255; 0; 0; 0])].
Proof. repeat split; vm_compute; reflexivity. Qed.

(** No 8-bit pixel converts to saturation 200 at value 10, the fourth
    pixel of the specification's scenario: at that value the saturation
    takes eleven values, none of them 200. *)
Lemma no_saturation_200_at_value_10 :
  forallb (fun d => negb (Z.shiftr (d * sdiv_table 10 + Z.shiftl 1 (hsv_shift - 1)) hsv_shift =? 200))
          [0; 1; 2; 3; 4; 5; 6; 7; 8; 9; 10] = true.
Proof. reflexivity. Qed.

(** The rounding model against the Standard Library's binary64
    operations, on the quantities of the examples. *)
Example fdiv_matches_SFdiv :
  fdiv (float_of_int 1) (float_of_int 255)
  = SF2Q (SFdiv 53 1024 (Z2SF 1) (Z2SF 255)).
Proof. vm_compute. reflexivity. Qed.

Example percentage_matches_SFmul :
  fmul (fdiv (fdiv (float_of_int 1) (float_of_int 255)) (float_of_int 4)) (float_of_int 100)
  = SF2Q (SFmul 53 1024
            (SFdiv 53 1024 (SFdiv 53 1024 (Z2SF 1) (Z2SF 255)) (Z2SF 4)) (Z2SF 100)).
Proof. vm_compute. reflexivity. Qed.

(** The two agree on [800 / m] and on [m * (800 / m)] for every longer
    side [m] from 801 to 2000. *)
Example scale_matches_SpecFloat_801_2000 :
  forallb
    (fun m =>
       Qeq_bool (fl (800 / inject_Z m)) (SF2Q (SFdiv 53 1024 (Z2SF 800) (Z2SF m)))
       && Qeq_bool (fmul (float_of_int m) (fl (800 / inject_Z m)))
            (SF2Q (SFmul 53 1024 (Z2SF m) (SFdiv 53 1024 (Z2SF 800) (Z2SF m)))))
    (seqZ 801 1200) = true.
Proof. vm_compute. reflexivity. Qed.

Example scaled_side_matches_SFmul :
  fmul (float_of_int 1078) (fl (800 / 1078))
  = SF2Q (SFmul 53 1024 (Z2SF 1078) (SFdiv 53 1024 (Z2SF 800) (Z2SF 1078))).
Proof. vm_compute. reflexivity. Qed.

(** ** Repeated calls on the same array *)

Lemma fresh_lookup_None (σ : store) : σ !! fresh (dom σ) = None.
Proof. apply not_elem_of_dom, is_fresh. Qed.

Lemma fresh_ne (σ : store) (l : loc) (o : pyobj) :
  σ !! l = Some o -> l ≠ fresh (dom σ).
Proof. intros H ->. rewrite fresh_lookup_None in H. discriminate. Qed.

(** One call: three arrays are allocated (the HSV image, the mask, the
    composite), the store is otherwise unchanged, and the contents are
    those [segment_hsv] computes from the contents of the argument. *)
Lemma segment_hsv_ref_run (BGR2HSV : pixel -> pixel) (σ : store) (img_bgr : loc)
    (img : image) (h_min h_max s_min s_max v_min v_max : Z) :
  σ !! img_bgr = Some (ObjImage img) ->
  is_empty img = false ->
  exists mask result pixel_count l_mask l_result σ',
    segment_hsv BGR2HSV img h_min h_max s_min s_max v_min v_max
      = Ok (mask, result, pixel_count) /\
    segment_hsv_ref BGR2HSV img_bgr h_min h_max s_min s_max v_min v_max σ
      = Ok ((l_mask, l_result, pixel_count), σ') /\
    σ' !! l_mask = Some (ObjMask mask) /\
    σ' !! l_result = Some (ObjImage result) /\
    σ !! l_mask = None /\ σ !! l_result = None /\
    (forall l o, σ !! l = Some o -> σ' !! l = Some o).
Proof.
  intros Hl Hne.
  set (hsv := nd_map BGR2HSV img).
  set (mask := inRange hsv (Px h_min s_min v_min) (Px h_max s_max v_max)).
  set (res := NdArray (shape0 img) (shape1 img) (and_masked (data img) (data img) (data mask))).
  set (l1 := fresh (dom σ)). set (σ1 := <[l1 := ObjImage hsv]> σ).
  set (l2 := fresh (dom σ1)). set (σ2 := <[l2 := ObjMask mask]> σ1).
  set (l3 := fresh (dom σ2)). set (σ3 := <[l3 := ObjImage res]> σ2).
  assert (H1 : σ1 !! img_bgr = Some (ObjImage img)).
  { unfold σ1. rewrite lookup_insert_ne; [exact Hl|]. symmetry. eapply fresh_ne, Hl. }
  assert (H2 : σ2 !! img_bgr = Some (ObjImage img)).
  { unfold σ2. rewrite lookup_insert_ne; [exact H1|]. symmetry. eapply fresh_ne, H1. }
  assert (H2m : σ2 !! l2 = Some (ObjMask mask)) by apply lookup_insert_eq.
  assert (H3m : σ3 !! l2 = Some (ObjMask mask)).
  { unfold σ3. rewrite lookup_insert_ne; [exact H2m|]. symmetry. eapply fresh_ne, H2m. }
  exists mask, res, (fdiv (float_of_int (np_sum (np_gt0 mask))) (float_of_int 255)), l2, l3, σ3.
  split; [apply segment_hsv_eq, Hne|]. split.
  { unfold segment_hsv_ref, st_bind, get_image, get_mask, st_lift, alloc, st_ret,
      cvtColor_BGR2HSV.
    rewrite Hl, Hne. fold hsv l1 σ1. unfold σ1 at 1. rewrite lookup_insert_eq.
    fold σ1 mask l2 σ2. rewrite H2. cbv beta iota. rewrite H2. cbv beta iota.
    rewrite H2m. cbv beta iota.
    assert (Hand : bitwise_and img img mask = Ok res).
    { unfold bitwise_and, same_shape. cbn [shape0 shape1 inRange nd_map mask hsv].
      rewrite !Z.eqb_refl. reflexivity. }
    rewrite Hand. cbv beta iota. fold l3 σ3. rewrite H3m. reflexivity. }
  split; [exact H3m|]. split; [apply lookup_insert_eq|].
  assert (Hσ2 : σ !! l2 = None).
  { destruct (σ !! l2) as [o|] eqn:E; [|reflexivity].
    assert (E1 : σ1 !! l2 = Some o).
    { unfold σ1. rewrite lookup_insert_ne; [exact E|]. symmetry. eapply fresh_ne, E. }
    unfold l2 in E1. rewrite fresh_lookup_None in E1. discriminate. }
  assert (Hframe : forall l o, σ !! l = Some o -> σ2 !! l = Some o).
  { intros l o E.
    assert (E1 : σ1 !! l = Some o).
    { unfold σ1. rewrite lookup_insert_ne; [exact E|]. symmetry. eapply fresh_ne, E. }
    unfold σ2. rewrite lookup_insert_ne; [exact E1|]. symmetry. eapply fresh_ne, E1. }
  split; [exact Hσ2|]. split.
  - destruct (σ !! l3) as [o|] eqn:E; [|reflexivity].
    apply Hframe in E. unfold l3 in E. rewrite fresh_lookup_None in E. discriminate.
  - intros l o E. pose proof (Hframe l o E) as E2.
    unfold σ3. rewrite lookup_insert_ne; [exact E2|]. symmetry. eapply fresh_ne, E2.
Qed.

(** C8. Two calls in a row on the same array object with the same range
    both succeed; the first leaves the argument as it was, and the masks,
    the composites and the pixel counts of the two calls are equal (and
    are those of [segment_hsv] on the contents). *)
Theorem segment_hsv_twice_same_results (BGR2HSV : pixel -> pixel) (σ : store)
    (img_bgr : loc) (img : image) (h_min h_max s_min s_max v_min v_max : Z) :
  σ !! img_bgr = Some (ObjImage img) ->
  is_empty img = false ->
  exists mask result pixel_count m1 r1 σ1 m2 r2 σ2,
    segment_hsv_ref BGR2HSV img_bgr h_min h_max s_min s_max v_min v_max σ
      = Ok ((m1, r1, pixel_count), σ1) /\
    σ1 !! img_bgr = Some (ObjImage img) /\
    segment_hsv_ref BGR2HSV img_bgr h_min h_max s_min s_max v_min v_max σ1
      = Ok ((m2, r2, pixel_count), σ2) /\
    σ2 !! m1 = Some (ObjMask mask) /\ σ2 !! m2 = Some (ObjMask mask) /\
    σ2 !! r1 = Some (ObjImage result) /\ σ2 !! r2 = Some (ObjImage result) /\
    m1 ≠ m2 /\ r1 ≠ r2 /\
    segment_hsv BGR2HSV img h_min h_max s_min s_max v_min v_max
      = Ok (mask, result, pixel_count).
Proof.
  intros Hl Hne.
  destruct (segment_hsv_ref_run BGR2HSV σ img_bgr img h_min h_max s_min s_max v_min v_max
              Hl Hne)
    as (mask & result & pc & m1 & r1 & σ1 & Hpure & Hrun1 & Hm1 & Hr1 & _ & _ & Hf1).
  pose proof (Hf1 _ _ Hl) as Hl1.
  destruct (segment_hsv_ref_run BGR2HSV σ1 img_bgr img h_min h_max s_min s_max v_min v_max
              Hl1 Hne)
    as (mask' & result' & pc' & m2 & r2 & σ2 & Hpure' & Hrun2 & Hm2 & Hr2 & Hn2 & Hn2' & Hf2).
  rewrite Hpure in Hpure'. injection Hpure' as <- <- <-.
  exists mask, result, pc, m1, r1, σ1, m2, r2, σ2.
  repeat split; try assumption.
  - apply Hf2, Hm1.
  - apply Hf2, Hr1.
  - intros ->. rewrite Hn2 in Hm1. discriminate.
  - intros ->. rewrite Hn2' in Hr1. discriminate.
Qed.

Lemma segment_hsv_twice_same_results_witness :
  ({[ 1%positive := ObjImage scenario_image ]} : store) !! 1%positive
    = Some (ObjImage scenario_image) /\
  is_empty scenario_image = false /\
  exists mask result pixel_count m1 r1 σ1 m2 r2 σ2,
    segment_hsv_ref BGR2HSV_8u 1%positive 30 85 50 255 50 255
        {[ 1%positive := ObjImage scenario_image ]}
      = Ok ((m1, r1, pixel_count), σ1) /\
    σ1 !! 1%positive = Some (ObjImage scenario_image) /\
    segment_hsv_ref BGR2HSV_8u 1%positive 30 85 50 255 50 255 σ1
      = Ok ((m2, r2, pixel_count), σ2) /\
    σ2 !! m1 = Some (ObjMask mask) /\ σ2 !! m2 = Some (ObjMask mask) /\
    σ2 !! r1 = Some (ObjImage result) /\ σ2 !! r2 = Some (ObjImage result) /\
    m1 ≠ m2 /\ r1 ≠ r2 /\
    segment_hsv BGR2HSV_8u scenario_image 30 85 50 255 50 255
      = Ok (mask, result, pixel_count).
Proof.
  split; [reflexivity|]. split; [reflexivity|].
  apply (segment_hsv_twice_same_results BGR2HSV_8u
           {[ 1%positive := ObjImage scenario_image ]} 1%positive scenario_image
           30 85 50 255 50 255); reflexivity.
Defined.

(** ** The loader *)

Lemma not_empty_iff {A} (a : ndarray A) :
  is_empty a = false <-> 0 < shape0 a /\ 0 < shape1 a.
Proof. unfold is_empty. rewrite orb_false_iff, !Z.leb_gt. tauto. Qed.

(** An image within the bound is returned as decoded. *)
Lemma load_within_bound imdecode resample f buf img :
  read f = Ok buf -> imdecode buf = Ok (Some img) ->
  Z.max (shape0 img) (shape1 img) <= 800 ->
  load_color_image imdecode resample (Some f) = Ok ([], Some img).
Proof.
  intros Hr Hd Hm. unfold load_color_image, load_color_image_try. rewrite Hr. cbn.
  rewrite Hd. cbn.
  replace (800 <? shape0 img) with false by (symmetry; apply Z.ltb_ge; lia).
  replace (800 <? shape1 img) with false by (symmetry; apply Z.ltb_ge; lia).
  reflexivity.
Qed.

(** A larger image goes through [cv2.resize] with the truncated sides. *)
Lemma load_over_bound imdecode resample f buf img scale :
  read f = Ok buf -> imdecode buf = Ok (Some img) ->
  800 < Z.max (shape0 img) (shape1 img) ->
  py_truediv 800 (Z.max (shape0 img) (shape1 img)) = Ok scale ->
  load_color_image imdecode resample (Some f) =
  match cv2_resize resample img
          (int_of_float (fmul (float_of_int (shape1 img)) scale),
           int_of_float (fmul (float_of_int (shape0 img)) scale)) with
  | Ok out => Ok ([], Some out)
  | Raise e =>
      Ok ([StError ("Terjadi kesalahan saat memproses citra: " ++ exn_text e)], None)
  end.
Proof.
  intros Hr Hd Hm Hs. unfold load_color_image, load_color_image_try. rewrite Hr. cbn.
  rewrite Hd. cbn.
  assert (Hc : (800 <? shape0 img) || (800 <? shape1 img) = true).
  { apply orb_true_iff. rewrite !Z.ltb_lt. lia. }
  rewrite Hc, Hs. cbn -[cv2_resize int_of_float fmul float_of_int].
  destruct (is_empty img); [reflexivity|].
  destruct ((int_of_float _ <=? 0) || (int_of_float _ <=? 0)); reflexivity.
Qed.

(** C2. For a decoded image with sides below [2^31] (they are C [int]s):
    when the longer side is at most 800 the loader returns the image as
    decoded; when it exceeds 800 the target sides are [int(side * scale)]
    with [scale = 800 / max(rows, cols)] in binary64, each the floor of
    [800 * side / max] or one less, so the longer target side is 799 or
    800, and when both target sides are positive the loader returns the
    image resampled to them. *)
Theorem resize_truncates_scaled_sides imdecode resample f buf img :
  read f = Ok buf -> imdecode buf = Ok (Some img) ->
  0 < shape0 img < 2 ^ 31 -> 0 < shape1 img < 2 ^ 31 ->
  let rows := shape0 img in
  let cols := shape1 img in
  let m := Z.max rows cols in
  (m <= 800 -> load_color_image imdecode resample (Some f) = Ok ([], Some img)) /\
  (800 < m ->
   exists scale, py_truediv 800 m = Ok scale /\
     let new_w := int_of_float (fmul (float_of_int cols) scale) in
     let new_h := int_of_float (fmul (float_of_int rows) scale) in
     800 * cols / m - 1 <= new_w <= 800 * cols / m /\
     800 * rows / m - 1 <= new_h <= 800 * rows / m /\
     799 <= Z.max new_w new_h <= 800 /\
     (0 < new_w -> 0 < new_h ->
      load_color_image imdecode resample (Some f)
        = Ok ([], Some (NdArray new_h new_w (resample img new_w new_h))))).
Proof.
  intros Hr Hd Hrows Hcols rows cols m. split.
  - intros Hm. eapply load_within_bound; eassumption.
  - intros Hm.
    destruct (scaled_side_bounds cols m) as (scale & Hs & Hw); [lia | lia |].
    destruct (scaled_side_bounds rows m) as (scale' & Hs' & Hh); [lia | lia |].
    rewrite Hs in Hs'. injection Hs' as <-.
    exists scale. split; [exact Hs|]. cbv zeta.
    set (new_w := int_of_float (fmul (float_of_int cols) scale)) in *.
    set (new_h := int_of_float (fmul (float_of_int rows) scale)) in *.
    split; [exact Hw|]. split; [exact Hh|].
    assert (Hcm : 800 * cols / m <= 800).
    { apply Z.div_le_upper_bound; lia. }
    assert (Hrm : 800 * rows / m <= 800).
    { apply Z.div_le_upper_bound; lia. }
    split.
    + assert (Hmm : 800 * m / m = 800) by (apply Z.div_mul; lia).
      destruct (Z.max_spec rows cols) as [[_ E]|[_ E]]; fold m in E.
      * assert (Hq : 800 * cols / m = 800) by (rewrite <- E; exact Hmm). lia.
      * assert (Hq : 800 * rows / m = 800) by (rewrite <- E; exact Hmm). lia.
    + intros Hpw Hph.
      rewrite (load_over_bound imdecode resample f buf img scale Hr Hd Hm Hs).
      fold rows cols new_w new_h. unfold cv2_resize.
      replace (is_empty img) with false by (symmetry; apply not_empty_iff; lia).
      replace (new_w <=? 0) with false by (symmetry; apply Z.leb_gt; lia).
      replace (new_h <=? 0) with false by (symmetry; apply Z.leb_gt; lia).
      reflexivity.
Qed.

Lemma resize_truncates_scaled_sides_witness :
  read wide_upload = Ok (Byte.x50 :: Byte.x02 :: replicate 1602 Byte.x80) /\
  raw_imdecode (Byte.x50 :: Byte.x02 :: replicate 1602 Byte.x80) = Ok (Some wide_image) /\
  0 < shape0 wide_image < 2 ^ 31 /\ 0 < shape1 wide_image < 2 ^ 31 /\
  let rows := shape0 wide_image in
  let cols := shape1 wide_image in
  let m := Z.max rows cols in
  (m <= 800 ->
   load_color_image raw_imdecode first_pixel_resample (Some wide_upload)
     = Ok ([], Some wide_image)) /\
  (800 < m ->
   exists scale, py_truediv 800 m = Ok scale /\
     let new_w := int_of_float (fmul (float_of_int cols) scale) in
     let new_h := int_of_float (fmul (float_of_int rows) scale) in
     800 * cols / m - 1 <= new_w <= 800 * cols / m /\
     800 * rows / m - 1 <= new_h <= 800 * rows / m /\
     799 <= Z.max new_w new_h <= 800 /\
     (0 < new_w -> 0 < new_h ->
      load_color_image raw_imdecode first_pixel_resample (Some wide_upload)
        = Ok ([], Some (NdArray new_h new_w
                          (first_pixel_resample wide_image new_w new_h))))).
Proof.
  split; [reflexivity|]. split; [vm_compute; reflexivity|].
  split; [cbn; lia|]. split; [cbn; lia|].
  apply (resize_truncates_scaled_sides raw_imdecode first_pixel_resample wide_upload
           (Byte.x50 :: Byte.x02 :: replicate 1602 Byte.x80) wide_image).
  - reflexivity.
  - vm_compute. reflexivity.
  - cbn. lia.
  - cbn. lia.
Defined.

(** The 2x801 image is resampled to 1 row of 800 columns, where rounding
    the scaled sides to the nearest integer gives 2 rows. *)
Lemma resize_target_truncated_not_rounded :
  raw_imdecode (Byte.x50 :: Byte.x02 :: replicate 1602 Byte.x80) = Ok (Some wide_image) /\
  800 < Z.max (shape0 wide_image) (shape1 wide_image) /\
  exists out new_width new_height,
    load_color_image raw_imdecode first_pixel_resample (Some wide_upload)
      = Ok ([], Some out) /\
    spec_new_size (shape0 wide_image) (shape1 wide_image) = Ok (new_width, new_height) /\
    shape0 out = 1 /\ new_height = 2 /\ shape0 out ≠ new_height.
Proof.
  split; [vm_compute; reflexivity|]. split; [cbn; lia|].
  exists (NdArray 1 800 (replicate 800 (Px 128 128 128))), 800, 2.
  repeat split; try (vm_compute; reflexivity). discriminate.
Qed.

(** The same on the sides of a 1000x997 photograph: 797 against 798. *)
Example truncated_side_997_of_1000 :
  (scale ← py_truediv 800 1000;
   mret (int_of_float (fmul (float_of_int 997) scale),
         py_round (fmul (float_of_int 997) scale))) = Ok (797, 798).
Proof. vm_compute. reflexivity. Qed.

(** The longer side can itself come out one short of the bound. *)
Example longer_side_1078_gives_799 :
  (scale ← py_truediv 800 1078;
   mret (int_of_float (fmul (float_of_int 1078) scale))) = Ok 799.
Proof. vm_compute. reflexivity. Qed.

(** A side that scales below 1 makes [cv2.resize] raise, and the loader
    answers [None]. *)
Example load_very_thin_image_fails :
  load_color_image raw_imdecode first_pixel_resample
    (Some (Upload (Ok (Byte.x50 :: Byte.x01 :: replicate 801 Byte.x80))))
  = Ok ([StError "Terjadi kesalahan saat memproses citra: resize: empty size"], None).
Proof. vm_compute. reflexivity. Qed.

(** C9. When the uploaded bytes do not decode ([cv2.imdecode] returns
    [None], or raises), the loader reports an error and returns no image,
    and the page run ends there: its only output is that error, no image,
    mask or metric is produced. *)
Theorem undecodable_upload_stops_the_run imdecode resample BGR2HSV f buf
    (h_min h_max s_min s_max v_min v_max : Z) :
  read f = Ok buf ->
  (imdecode buf = Ok None \/ exists e, imdecode buf = Raise e) ->
  exists msg,
    load_color_image imdecode resample (Some f) = Ok ([StError msg], None) /\
    main_app imdecode resample BGR2HSV (Some f) h_min h_max s_min s_max v_min v_max
      = Ok [StError msg] /\
    forallb (fun e => negb (is_result_event e)) [StError msg] = true.
Proof.
  intros Hr [Hd | [e Hd]].
  - eexists. unfold main_app, load_color_image, load_color_image_try.
    rewrite Hr. cbn. rewrite Hd. cbn. repeat split; reflexivity.
  - eexists. unfold main_app, load_color_image, load_color_image_try.
    rewrite Hr. cbn. rewrite Hd. cbn. repeat split; reflexivity.
Qed.

Lemma undecodable_upload_stops_the_run_witness :
  read broken_upload = Ok [Byte.x00; Byte.x01; Byte.x02] /\
  (raw_imdecode [Byte.x00; Byte.x01; Byte.x02] = Ok None \/
   exists e, raw_imdecode [Byte.x00; Byte.x01; Byte.x02] = Raise e) /\
  exists msg,
    load_color_image raw_imdecode first_pixel_resample (Some broken_upload)
      = Ok ([StError msg], None) /\
    main_app raw_imdecode first_pixel_resample BGR2HSV_8u (Some broken_upload)
             30 85 50 255 50 255
      = Ok [StError msg] /\
    forallb (fun e => negb (is_result_event e)) [StError msg] = true.
Proof.
  split; [reflexivity|]. split; [left; reflexivity|].
  apply (undecodable_upload_stops_the_run raw_imdecode first_pixel_resample BGR2HSV_8u
           broken_upload [Byte.x00; Byte.x01; Byte.x02] 30 85 50 255 50 255).
  - reflexivity.
  - left. reflexivity.
Defined.

(** ** Outcomes of the loader *)

Lemma raw_imdecode_contract buf img :
  raw_imdecode buf = Ok (Some img) -> well_formed img /\ is_empty img = false.
Proof.
  destruct buf as [|b [|r rest]]; cbn; try discriminate.
  set (rows := Z.of_N (Byte.to_N r)). set (n := Z.of_nat (length rest)).
  destruct (Z.of_N (Byte.to_N b) =? 80); cbn; [|discriminate].
  destruct (Z.ltb_spec 0 rows) as [Hrows|]; cbn; [|discriminate].
  destruct (Z.ltb_spec 0 n) as [Hn|]; cbn; [|discriminate].
  destruct (Z.eqb_spec (n mod rows) 0) as [Hmod|]; [|discriminate].
  intros [= <-].
  pose proof (Z.div_mod n rows ltac:(lia)) as Hdm. rewrite Hmod in Hdm.
  assert (Hq : 0 < n / rows) by nia.
  split.
  - unfold well_formed. cbn. rewrite length_fmap. fold n. lia.
  - apply not_empty_iff. cbn. lia.
Qed.

Lemma first_pixel_resample_length src w h :
  0 < w -> 0 < h -> Z.of_nat (length (first_pixel_resample src w h)) = w * h.
Proof.
  intros Hw Hh. unfold first_pixel_resample. rewrite length_replicate. nia.
Qed.

Lemma load_color_image_try_image imdecode resample f shown img :
  (forall buf img, imdecode buf = Ok (Some img) -> well_formed img /\ is_empty img = false) ->
  (forall src w h, 0 < w -> 0 < h -> Z.of_nat (length (resample src w h)) = w * h) ->
  load_color_image_try imdecode resample f = Ok (shown, Some img) ->
  well_formed img /\ is_empty img = false.
Proof.
  intros Hdec Hres. unfold load_color_image_try.
  destruct (read f) as [buf|e]; cbn; [|discriminate].
  destruct (imdecode buf) as [[dec|]|e] eqn:Hd; cbn; try discriminate.
  destruct ((800 <? shape0 dec) || (800 <? shape1 dec)).
  - destruct (py_truediv 800 (Z.max (shape0 dec) (shape1 dec))) as [scale|e];
      cbn -[int_of_float fmul float_of_int]; [|discriminate].
    destruct (is_empty dec); cbn -[int_of_float fmul float_of_int]; [discriminate|].
    set (w := int_of_float (fmul (float_of_int (shape1 dec)) scale)).
    set (h := int_of_float (fmul (float_of_int (shape0 dec)) scale)).
    destruct (Z.leb_spec w 0) as [|Hw]; cbn; [discriminate|].
    destruct (Z.leb_spec h 0) as [|Hh]; cbn; [discriminate|].
    intros [= _ <-]. split.
    + unfold well_formed. cbn. rewrite (Hres dec w h Hw Hh). lia.
    + apply not_empty_iff. cbn. lia.
  - cbn. intros [= _ <-]. eapply Hdec, Hd.
Qed.

(** C10. Let the decoder return only well-formed, non-empty images and the
    resampler fill the requested size.  Then [load_color_image] never
    raises: for [None] it returns [None] at once; for a file it returns
    either [None] or a well-formed, non-empty image; and whenever the
    [try] block raises (in [read], in the decoder or in the resize) the
    exception is reported and the result is [None]. *)
Theorem load_color_image_never_raises imdecode resample :
  (forall buf img, imdecode buf = Ok (Some img) -> well_formed img /\ is_empty img = false) ->
  (forall src w h, 0 < w -> 0 < h -> Z.of_nat (length (resample src w h)) = w * h) ->
  load_color_image imdecode resample None = Ok ([], None) /\
  forall f, exists shown loaded,
    load_color_image imdecode resample (Some f) = Ok (shown, loaded) /\
    (loaded = None \/
     exists img, loaded = Some img /\ well_formed img /\ is_empty img = false) /\
    (forall e, load_color_image_try imdecode resample f = Raise e ->
       loaded = None /\
       shown = [StError ("Terjadi kesalahan saat memproses citra: " ++ exn_text e)]) /\
    (forall e, read f = Raise e -> loaded = None) /\
    (forall buf e, read f = Ok buf -> imdecode buf = Raise e -> loaded = None).
Proof.
  intros Hdec Hres. split; [reflexivity|]. intros f.
  unfold load_color_image.
  destruct (load_color_image_try imdecode resample f) as [[shown loaded]|e] eqn:E.
  - exists shown, loaded. split; [reflexivity|]. split; [|split; [|split]].
    + destruct loaded as [img|]; [right|left; reflexivity].
      exists img. split; [reflexivity|].
      eapply load_color_image_try_image; eassumption.
    + intros e [=].
    + intros e He. unfold load_color_image_try in E. rewrite He in E. discriminate.
    + intros buf e Hr Hd. unfold load_color_image_try in E. rewrite Hr in E. cbn in E.
      rewrite Hd in E. discriminate.
  - eexists _, None. split; [reflexivity|]. split; [left; reflexivity|].
    split; [|split]; [|reflexivity|reflexivity].
    intros e' [= <-]. split; reflexivity.
Qed.

Lemma load_color_image_never_raises_witness :
  (forall buf img,
     raw_imdecode buf = Ok (Some img) -> well_formed img /\ is_empty img = false) /\
  (forall src w h,
     0 < w -> 0 < h -> Z.of_nat (length (first_pixel_resample src w h)) = w * h) /\
  load_color_image raw_imdecode first_pixel_resample None = Ok ([], None) /\
  forall f, exists shown loaded,
    load_color_image raw_imdecode first_pixel_resample (Some f) = Ok (shown, loaded) /\
    (loaded = None \/
     exists img, loaded = Some img /\ well_formed img /\ is_empty img = false) /\
    (forall e, load_color_image_try raw_imdecode first_pixel_resample f = Raise e ->
       loaded = None /\
       shown = [StError ("Terjadi kesalahan saat memproses citra: " ++ exn_text e)]) /\
    (forall e, read f = Raise e -> loaded = None) /\
    (forall buf e, read f = Ok buf -> raw_imdecode buf = Raise e -> loaded = None).
Proof.
  split; [exact raw_imdecode_contract|]. split; [exact first_pixel_resample_length|].
  apply (load_color_image_never_raises raw_imdecode first_pixel_resample).
  - exact raw_imdecode_contract.
  - exact first_pixel_resample_length.
Defined.

(** The three ways out of the loader on concrete uploads. *)
Example load_small_upload :
  load_color_image raw_imdecode first_pixel_resample (Some small_upload)
  = Ok ([], Some (NdArray 1 2 [Px 16 16 16; Px 32 32 32])).
Proof. vm_compute. reflexivity. Qed.

Example load_read_failure :
  load_color_image raw_imdecode first_pixel_resample
    (Some (Upload (Raise (OSError "closed file"))))
  = Ok ([StError "Terjadi kesalahan saat memproses citra: closed file"], None).
Proof. vm_compute. reflexivity. Qed.

Example load_empty_buffer :
  load_color_image raw_imdecode first_pixel_resample (Some (Upload (Ok [])))
  = Ok ([StError "Terjadi kesalahan saat memproses citra: imdecode: empty buffer"], None).
Proof. vm_compute. reflexivity. Qed.

(** ** The size of a loaded image *)

(** Whatever the resampler, an array [cv2_resize] returns has the
    requested sides, both positive. *)
Lemma cv2_resize_shape resample src w h out :
  cv2_resize resample src (w, h) = Ok out ->
  shape0 out = h /\ shape1 out = w /\ 0 < w /\ 0 < h.
Proof.
  unfold cv2_resize. destruct (is_empty src); [discriminate|].
  destruct (Z.leb_spec w 0); cbn; [discriminate|].
  destruct (Z.leb_spec h 0); cbn; [discriminate|].
  intros [= <-]. cbn. lia.
Qed.

(** X1. When the loader returns an image for an upload that decodes to
    an image with sides below [2^31], it shows no message and the returned
    sides are positive, at most 800, and never larger than the decoded
    ones: the loader only shrinks. *)
Theorem loaded_image_at_most_800_and_never_enlarged
    imdecode resample f buf img shown out :
  read f = Ok buf -> imdecode buf = Ok (Some img) ->
  0 < shape0 img < 2 ^ 31 -> 0 < shape1 img < 2 ^ 31 ->
  load_color_image imdecode resample (Some f) = Ok (shown, Some out) ->
  shown = [] /\
  0 < shape0 out <= 800 /\ 0 < shape1 out <= 800 /\
  shape0 out <= shape0 img /\ shape1 out <= shape1 img.
Proof.
  intros Hr Hd Hrows Hcols Hload.
  destruct (Z.le_gt_cases (Z.max (shape0 img) (shape1 img)) 800) as [Hm|Hm].
  - rewrite (load_within_bound imdecode resample f buf img Hr Hd Hm) in Hload.
    injection Hload as <- <-. split; [reflexivity|]. lia.
  - set (m := Z.max (shape0 img) (shape1 img)) in *.
    destruct (scaled_side_bounds (shape1 img) m) as (scale & Hs & Hw); [lia | lia |].
    destruct (scaled_side_bounds (shape0 img) m) as (scale' & Hs' & Hh); [lia | lia |].
    rewrite Hs in Hs'. injection Hs' as <-.
    rewrite (load_over_bound imdecode resample f buf img scale Hr Hd Hm Hs) in Hload.
    destruct (cv2_resize resample img _) as [o|e] eqn:Hres; [|discriminate].
    injection Hload as <- <-.
    apply cv2_resize_shape in Hres as (-> & -> & Hpw & Hph).
    assert (800 * shape1 img / m <= 800) by (apply Z.div_le_upper_bound; lia).
    assert (800 * shape0 img / m <= 800) by (apply Z.div_le_upper_bound; lia).
    assert (800 * shape1 img / m <= shape1 img) by (apply Z.div_le_upper_bound; nia).
    assert (800 * shape0 img / m <= shape0 img) by (apply Z.div_le_upper_bound; nia).
    split; [reflexivity|]. lia.
Qed.

Lemma loaded_image_at_most_800_and_never_enlarged_witness :
  read wide_upload = Ok (Byte.x50 :: Byte.x02 :: replicate 1602 Byte.x80) /\
  raw_imdecode (Byte.x50 :: Byte.x02 :: replicate 1602 Byte.x80) = Ok (Some wide_image) /\
  0 < shape0 wide_image < 2 ^ 31 /\ 0 < shape1 wide_image < 2 ^ 31 /\
  load_color_image raw_imdecode first_pixel_resample (Some wide_upload)
    = Ok ([], Some (NdArray 1 800 (replicate 800 (Px 128 128 128)))) /\
  ([] : list ui_event) = [] /\
  0 < shape0 (NdArray 1 800 (replicate 800 (Px 128 128 128))) <= 800 /\
  0 < shape1 (NdArray 1 800 (replicate 800 (Px 128 128 128))) <= 800 /\
  shape0 (NdArray 1 800 (replicate 800 (Px 128 128 128))) <= shape0 wide_image /\
  shape1 (NdArray 1 800 (replicate 800 (Px 128 128 128))) <= shape1 wide_image.
Proof.
  split; [reflexivity|]. split; [vm_compute; reflexivity|].
  split; [cbn; lia|]. split; [cbn; lia|]. split; [vm_compute; reflexivity|].
  apply (loaded_image_at_most_800_and_never_enlarged raw_imdecode first_pixel_resample
           wide_upload (Byte.x50 :: Byte.x02 :: replicate 1602 Byte.x80) wide_image).
  - reflexivity.
  - vm_compute. reflexivity.
  - cbn. lia.
  - cbn. lia.
  - vm_compute. reflexivity.
Defined.

(** X2. An image whose longer side is more than 800 times its shorter
    side cannot be loaded: the shorter target side truncates to 0,
    [cv2.resize] raises, and the loader reports the error and returns
    [None]. *)
Theorem very_elongated_image_is_rejected imdecode resample f buf img :
  read f = Ok buf -> imdecode buf = Ok (Some img) ->
  0 < shape0 img < 2 ^ 31 -> 0 < shape1 img < 2 ^ 31 ->
  800 * Z.min (shape0 img) (shape1 img) < Z.max (shape0 img) (shape1 img) ->
  exists msg,
    load_color_image imdecode resample (Some f) = Ok ([StError msg], None).
Proof.
  intros Hr Hd Hrows Hcols Hthin.
  set (m := Z.max (shape0 img) (shape1 img)) in *.
  assert (Hm : 800 < m) by lia.
  destruct (scaled_side_bounds (shape1 img) m) as (scale & Hs & Hw); [lia | lia |].
  destruct (scaled_side_bounds (shape0 img) m) as (scale' & Hs' & Hh); [lia | lia |].
  rewrite Hs in Hs'. injection Hs' as <-.
  rewrite (load_over_bound imdecode resample f buf img scale Hr Hd Hm Hs).
  set (w := int_of_float (fmul (float_of_int (shape1 img)) scale)) in *.
  set (h := int_of_float (fmul (float_of_int (shape0 img)) scale)) in *.
  assert (Hzero : w <= 0 \/ h <= 0).
  { destruct (Z.min_spec (shape0 img) (shape1 img)) as [[_ E]|[_ E]]; rewrite E in Hthin.
    - right. assert (800 * shape0 img / m = 0) by (apply Z.div_small; lia). lia.
    - left. assert (800 * shape1 img / m = 0) by (apply Z.div_small; lia). lia. }
  unfold cv2_resize. destruct (is_empty img); [eexists; reflexivity|].
  assert (Hc : (w <=? 0) || (h <=? 0) = true).
  { apply orb_true_iff. rewrite !Z.leb_le. exact Hzero. }
  rewrite Hc. eexists. reflexivity.
Qed.

Lemma very_elongated_image_is_rejected_witness :
  read (Upload (Ok (Byte.x50 :: Byte.x01 :: replicate 801 Byte.x80)))
    = Ok (Byte.x50 :: Byte.x01 :: replicate 801 Byte.x80) /\
  raw_imdecode (Byte.x50 :: Byte.x01 :: replicate 801 Byte.x80)
    = Ok (Some (NdArray 1 801 (replicate 801 (Px 128 128 128)))) /\
  0 < shape0 (NdArray 1 801 (replicate 801 (Px 128 128 128))) < 2 ^ 31 /\
  0 < shape1 (NdArray 1 801 (replicate 801 (Px 128 128 128))) < 2 ^ 31 /\
  800 * Z.min (shape0 (NdArray 1 801 (replicate 801 (Px 128 128 128))))
              (shape1 (NdArray 1 801 (replicate 801 (Px 128 128 128))))
    < Z.max (shape0 (NdArray 1 801 (replicate 801 (Px 128 128 128))))
            (shape1 (NdArray 1 801 (replicate 801 (Px 128 128 128)))) /\
  exists msg,
    load_color_image raw_imdecode first_pixel_resample
      (Some (Upload (Ok (Byte.x50 :: Byte.x01 :: replicate 801 Byte.x80))))
    = Ok ([StError msg], None).
Proof.
  split; [reflexivity|]. split; [vm_compute; reflexivity|].
  split; [cbn; lia|]. split; [cbn; lia|]. split; [cbn; lia|].
  apply (very_elongated_image_is_rejected raw_imdecode first_pixel_resample
           (Upload (Ok (Byte.x50 :: Byte.x01 :: replicate 801 Byte.x80)))
           (Byte.x50 :: Byte.x01 :: replicate 801 Byte.x80)
           (NdArray 1 801 (replicate 801 (Px 128 128 128)))).
  - reflexivity.
  - vm_compute. reflexivity.
  - cbn. lia.
  - cbn. lia.
  - cbn. lia.
Defined.

(** X3. An image whose longer side is at most 400 times its shorter side
    is always loaded: both target sides are at least 1, so the resize
    cannot fail. *)
Theorem moderately_elongated_image_is_loaded imdecode resample f buf img :
  read f = Ok buf -> imdecode buf = Ok (Some img) ->
  0 < shape0 img < 2 ^ 31 -> 0 < shape1 img < 2 ^ 31 ->
  Z.max (shape0 img) (shape1 img) <= 400 * Z.min (shape0 img) (shape1 img) ->
  exists out,
    load_color_image imdecode resample (Some f) = Ok ([], Some out).
Proof.
  intros Hr Hd Hrows Hcols Hfat.
  destruct (Z.le_gt_cases (Z.max (shape0 img) (shape1 img)) 800) as [Hm|Hm].
  - eexists. eapply load_within_bound; eassumption.
  - set (m := Z.max (shape0 img) (shape1 img)) in *.
    destruct (scaled_side_bounds (shape1 img) m) as (scale & Hs & Hw); [lia | lia |].
    destruct (scaled_side_bounds (shape0 img) m) as (scale' & Hs' & Hh); [lia | lia |].
    rewrite Hs in Hs'. injection Hs' as <-.
    rewrite (load_over_bound imdecode resample f buf img scale Hr Hd Hm Hs).
    set (w := int_of_float (fmul (float_of_int (shape1 img)) scale)) in *.
    set (h := int_of_float (fmul (float_of_int (shape0 img)) scale)) in *.
    assert (Hm0 : 0 < m) by lia.
    assert (H1 : m * 2 <= 800 * shape1 img) by lia.
    assert (H0 : m * 2 <= 800 * shape0 img) by lia.
    pose proof (Z.div_le_lower_bound _ _ _ Hm0 H1).
    pose proof (Z.div_le_lower_bound _ _ _ Hm0 H0).
    unfold cv2_resize.
    replace (is_empty img) with false by (symmetry; apply not_empty_iff; lia).
    replace (w <=? 0) with false by (symmetry; apply Z.leb_gt; lia).
    replace (h <=? 0) with false by (symmetry; apply Z.leb_gt; lia).
    eexists. reflexivity.
Qed.

Lemma moderately_elongated_image_is_loaded_witness :
  read (Upload (Ok (Byte.x50 :: Byte.x03 :: replicate 2403 Byte.x80)))
    = Ok (Byte.x50 :: Byte.x03 :: replicate 2403 Byte.x80) /\
  raw_imdecode (Byte.x50 :: Byte.x03 :: replicate 2403 Byte.x80)
    = Ok (Some (NdArray 3 801 (replicate 2403 (Px 128 128 128)))) /\
  0 < shape0 (NdArray 3 801 (replicate 2403 (Px 128 128 128))) < 2 ^ 31 /\
  0 < shape1 (NdArray 3 801 (replicate 2403 (Px 128 128 128))) < 2 ^ 31 /\
  Z.max (shape0 (NdArray 3 801 (replicate 2403 (Px 128 128 128))))
        (shape1 (NdArray 3 801 (replicate 2403 (Px 128 128 128))))
    <= 400 * Z.min (shape0 (NdArray 3 801 (replicate 2403 (Px 128 128 128))))
                   (shape1 (NdArray 3 801 (replicate 2403 (Px 128 128 128)))) /\
  exists out,
    load_color_image raw_imdecode first_pixel_resample
      (Some (Upload (Ok (Byte.x50 :: Byte.x03 :: replicate 2403 Byte.x80))))
    = Ok ([], Some out).
Proof.
  split; [reflexivity|]. split; [vm_compute; reflexivity|].
  split; [cbn; lia|]. split; [cbn; lia|]. split; [cbn; lia|].
  apply (moderately_elongated_image_is_loaded raw_imdecode first_pixel_resample
           (Upload (Ok (Byte.x50 :: Byte.x03 :: replicate 2403 Byte.x80)))
           (Byte.x50 :: Byte.x03 :: replicate 2403 Byte.x80)
           (NdArray 3 801 (replicate 2403 (Px 128 128 128)))).
  - reflexivity.
  - vm_compute. reflexivity.
  - cbn. lia.
  - cbn. lia.
  - cbn. lia.
Defined.

(** X4. For an uploaded file the loader never fails silently: it returns
    either [None] together with exactly one error message, or an image
    and no message. *)
Theorem loader_reports_every_failure imdecode resample f :
  (exists msg,
     load_color_image imdecode resample (Some f) = Ok ([StError msg], None)) \/
  (exists img,
     load_color_image imdecode resample (Some f) = Ok ([], Some img)).
Proof.
  unfold load_color_image, load_color_image_try.
  destruct (read f) as [buf|e]; cbn; [|left; eexists; reflexivity].
  destruct (imdecode buf) as [[img|]|e]; cbn; try (left; eexists; reflexivity).
  destruct ((800 <? shape0 img) || (800 <? shape1 img));
    [|right; eexists; reflexivity].
  destruct (py_truediv 800 (Z.max (shape0 img) (shape1 img))) as [scale|e];
    cbn -[int_of_float fmul float_of_int]; [|left; eexists; reflexivity].
  destruct (is_empty img); cbn -[int_of_float fmul float_of_int];
    [left; eexists; reflexivity|].
  destruct ((int_of_float _ <=? 0) || (int_of_float _ <=? 0));
    cbn -[int_of_float fmul float_of_int];
    [left|right]; eexists; reflexivity.
Qed.

(** ** The page run *)

(** Step 4 on a non-empty image, written out. *)
Lemma main_app_results_eq (BGR2HSV : pixel -> pixel) (img_bgr : image)
    (h_min h_max s_min s_max v_min v_max : Z) :
  is_empty img_bgr = false ->
  let mask := inRange (nd_map BGR2HSV img_bgr) (Px h_min s_min v_min) (Px h_max s_max v_max) in
  let result := NdArray (shape0 img_bgr) (shape1 img_bgr)
                  (and_masked (data img_bgr) (data img_bgr) (data mask)) in
  let pixel_count := fdiv (float_of_int (np_sum (np_gt0 mask))) (float_of_int 255) in
  main_app_results BGR2HSV img_bgr h_min h_max s_min s_max v_min v_max =
  Ok [StImage (nd_map swap_rb img_bgr);
      StImage (nd_map swap_rb result);
      StMetric "Total Piksel Vegetasi Terdeteksi (Area Hijau)"
               (MInt (int_of_float pixel_count));
      StMetric "Persentase Area Vegetasi"
               (MFloat (fmul (fdiv pixel_count
                                   (float_of_int (shape0 img_bgr * shape1 img_bgr)))
                             (float_of_int 100)));
      StImageMask mask].
Proof.
  intros Hne. cbv zeta. unfold main_app_results.
  rewrite (segment_hsv_eq BGR2HSV img_bgr h_min h_max s_min s_max v_min v_max Hne).
  cbv zeta. unfold cvtColor_BGR2RGB. cbn -[fdiv fmul float_of_int int_of_float].
  rewrite Hne. cbn -[fdiv fmul float_of_int int_of_float].
  unfold is_empty in *. cbn [shape0 shape1]. rewrite Hne. reflexivity.
Qed.

(** Under a decoder that returns no empty image, what the loader returns
    is an error message with [None], or a non-empty image. *)
Lemma load_color_image_outcome imdecode resample f :
  (forall buf img, imdecode buf = Ok (Some img) -> is_empty img = false) ->
  (exists msg,
     load_color_image imdecode resample (Some f) = Ok ([StError msg], None)) \/
  (exists img,
     load_color_image imdecode resample (Some f) = Ok ([], Some img) /\
     is_empty img = false).
Proof.
  intros Hdec. unfold load_color_image, load_color_image_try.
  destruct (read f) as [buf|e]; cbn; [|left; eexists; reflexivity].
  destruct (imdecode buf) as [[img|]|e] eqn:Hd; cbn; try (left; eexists; reflexivity).
  destruct ((800 <? shape0 img) || (800 <? shape1 img)).
  2:{ right. eexists. split; [reflexivity|]. eapply Hdec, Hd. }
  destruct (py_truediv 800 (Z.max (shape0 img) (shape1 img))) as [scale|e];
    cbn -[int_of_float fmul float_of_int]; [|left; eexists; reflexivity].
  destruct (is_empty img); cbn -[int_of_float fmul float_of_int];
    [left; eexists; reflexivity|].
  set (w := int_of_float (fmul (float_of_int (shape1 img)) scale)).
  set (h := int_of_float (fmul (float_of_int (shape0 img)) scale)).
  destruct (Z.leb_spec w 0) as [|Hw]; cbn; [left; eexists; reflexivity|].
  destruct (Z.leb_spec h 0) as [|Hh]; cbn; [left; eexists; reflexivity|].
  right. eexists. split; [reflexivity|]. apply not_empty_iff. cbn. lia.
Qed.

(** X5. Under a decoder that returns no empty image, a page run never
    raises, whatever the upload and the slider values, and it shows one
    of three things: the invitation to upload; one error message; or the
    success note, the two images, the two metrics, the mask and the note
    that repeats the six slider values, in that order. *)
Theorem main_app_never_raises imdecode resample BGR2HSV uploaded_file
    (h_min h_max s_min s_max v_min v_max : Z) :
  (forall buf img, imdecode buf = Ok (Some img) -> is_empty img = false) ->
  exists shown,
    main_app imdecode resample BGR2HSV uploaded_file h_min h_max s_min s_max v_min v_max
      = Ok shown /\
    ((uploaded_file = None /\
      shown = [StInfo "⬆️ Silakan unggah citra satelit Anda untuk memulai analisis."]) \/
     (exists msg, shown = [StError msg]) \/
     (exists img_rgb result_rgb label n label' pct mask,
        shown = [StSuccess "✅ Citra berhasil dimuat. Lanjutkan ke langkah 2 untuk mengontrol segmentasi.";
                 StImage img_rgb; StImage result_rgb;
                 StMetric label (MInt n); StMetric label' (MFloat pct);
                 StImageMask mask;
                 StInfo (range_note h_min h_max s_min s_max v_min v_max)])).
Proof.
  intros Hdec. destruct uploaded_file as [f|].
  2:{ eexists. split; [reflexivity|]. left. split; reflexivity. }
  unfold main_app.
  destruct (load_color_image_outcome imdecode resample f Hdec)
    as [[msg Hl]|(img & Hl & Hne)]; rewrite Hl.
  - eexists. split; [reflexivity|]. right. left. eexists. reflexivity.
  - cbn -[main_app_results range_note]. rewrite main_app_results_eq by exact Hne.
    eexists. split; [reflexivity|]. right. right. do 7 eexists. reflexivity.
Qed.

Lemma main_app_never_raises_witness :
  (forall buf img, raw_imdecode buf = Ok (Some img) -> is_empty img = false) /\
  exists shown,
    main_app raw_imdecode first_pixel_resample BGR2HSV_8u (Some small_upload)
             30 85 50 255 50 255
      = Ok shown /\
    ((Some small_upload = None /\
      shown = [StInfo "⬆️ Silakan unggah citra satelit Anda untuk memulai analisis."]) \/
     (exists msg, shown = [StError msg]) \/
     (exists img_rgb result_rgb label n label' pct mask,
        shown = [StSuccess "✅ Citra berhasil dimuat. Lanjutkan ke langkah 2 untuk mengontrol segmentasi.";
                 StImage img_rgb; StImage result_rgb;
                 StMetric label (MInt n); StMetric label' (MFloat pct);
                 StImageMask mask;
                 StInfo (range_note 30 85 50 255 50 255)])).
Proof.
  split; [intros buf img H; apply (raw_imdecode_contract buf img H)|].
  apply (main_app_never_raises raw_imdecode first_pixel_resample BGR2HSV_8u
           (Some small_upload) 30 85 50 255 50 255).
  intros buf img H. apply (raw_imdecode_contract buf img H).
Defined.

(** The closing note for the default slider values. *)
Example range_note_default :
  range_note 30 85 50 255 50 255
  = "**Rentang HSV yang Digunakan:** H: [30, 85], S: [50, 255], V: [50, 255]"%string.
Proof. reflexivity. Qed.

(** X6. What the page shows as result is the displayed input with the
    unselected pixels blacked out: the RGB image holds every pixel with
    channels 0 and 2 exchanged, the RGB result has the same shape, is
    black where the mask is 0 and equals the RGB image where the mask is
    255. *)
Theorem shown_result_is_masked_shown_image (BGR2HSV : pixel -> pixel) (img_bgr : image)
    (h_min h_max s_min s_max v_min v_max : Z) :
  is_empty img_bgr = false ->
  exists img_rgb result_rgb label n label' pct mask,
    main_app_results BGR2HSV img_bgr h_min h_max s_min s_max v_min v_max
      = Ok [StImage img_rgb; StImage result_rgb;
            StMetric label (MInt n); StMetric label' (MFloat pct);
            StImageMask mask] /\
    shape0 result_rgb = shape0 img_rgb /\ shape1 result_rgb = shape1 img_rgb /\
    shape0 img_rgb = shape0 img_bgr /\ shape1 img_rgb = shape1 img_bgr /\
    (forall i p, data img_bgr !! i = Some p ->
       data img_rgb !! i = Some (Px (ch2 p) (ch1 p) (ch0 p))) /\
    (forall i v, data mask !! i = Some v ->
       (v = 0 -> data result_rgb !! i = Some black) /\
       (v = 255 -> data result_rgb !! i = data img_rgb !! i)).
Proof.
  intros Hne. do 7 eexists. split; [apply main_app_results_eq, Hne|].
  do 4 (split; [reflexivity|]). split.
  - intros i p Hp. rewrite nd_map_lookup, Hp. reflexivity.
  - intros i v. rewrite !nd_map_lookup. cbn [data].
    rewrite and_masked_lookup, !inRange_lookup, !nd_map_lookup.
    destruct (data img_bgr !! i) as [p|]; cbn; [|discriminate].
    intros [= Hv]. rewrite Hv. split; intros ->; cbn; [reflexivity|].
    rewrite and_px_diag. reflexivity.
Qed.

Lemma shown_result_is_masked_shown_image_witness :
  is_empty scenario_image = false /\
  exists img_rgb result_rgb label n label' pct mask,
    main_app_results BGR2HSV_8u scenario_image 30 85 50 255 50 255
      = Ok [StImage img_rgb; StImage result_rgb;
            StMetric label (MInt n); StMetric label' (MFloat pct);
            StImageMask mask] /\
    shape0 result_rgb = shape0 img_rgb /\ shape1 result_rgb = shape1 img_rgb /\
    shape0 img_rgb = shape0 scenario_image /\ shape1 img_rgb = shape1 scenario_image /\
    (forall i p, data scenario_image !! i = Some p ->
       data img_rgb !! i = Some (Px (ch2 p) (ch1 p) (ch0 p))) /\
    (forall i v, data mask !! i = Some v ->
       (v = 0 -> data result_rgb !! i = Some black) /\
       (v = 255 -> data result_rgb !! i = data img_rgb !! i)).
Proof.
  split; [reflexivity|].
  apply (shown_result_is_masked_shown_image BGR2HSV_8u scenario_image 30 85 50 255 50 255).
  reflexivity.
Defined.

(** ** The metrics shown *)

Lemma int_of_float_unit_interval (p : Q) (n : Z) :
  (inject_Z n <= p)%Q -> (p < inject_Z n + 1)%Q -> 0 <= n -> int_of_float p = n.
Proof.
  intros Hl Hu Hn. unfold int_of_float.
  assert (H0 : (0 <= p)%Q).
  { apply Qle_trans with (inject_Z n); [|exact Hl].
    change 0%Q with (inject_Z 0). rewrite <- Zle_Qle. exact Hn. }
  apply Qle_bool_iff in H0. rewrite H0.
  pose proof (Qfloor_le p) as Hfl. pose proof (Qlt_floor p) as Hfu.
  rewrite inject_Z_plus in Hfu. change (inject_Z 1) with 1%Q in Hfu.
  assert (H1 : (inject_Z (Qfloor p) < inject_Z (n + 1))%Q).
  { rewrite inject_Z_plus. change (inject_Z 1) with 1%Q. lra. }
  assert (H2 : (inject_Z n < inject_Z (Qfloor p + 1))%Q).
  { rewrite inject_Z_plus. change (inject_Z 1) with 1%Q. lra. }
  rewrite <- Zlt_Qlt in H1, H2. lia.
Qed.

(** Truncating [c / 255] computed in binary64 gives the integer quotient. *)
Lemma int_of_count_over_255 (c : Z) :
  0 <= c < 2 ^ 40 ->
  int_of_float (fdiv (float_of_int c) (float_of_int 255)) = c / 255.
Proof.
  intros [H0 Hc]. unfold fdiv, float_of_int.
  rewrite (fl_comp (fl (inject_Z c) / fl (inject_Z 255)) (inject_Z c / 255)).
  2:{ rewrite !fl_int by lia. reflexivity. }
  pose proof (Z.div_mod c 255 ltac:(lia)) as Hdm.
  pose proof (Z.mod_pos_bound c 255 ltac:(lia)) as Hmod.
  set (n := c / 255) in *. set (r := c mod 255) in *.
  assert (Hn0 : 0 <= n) by (apply Z.div_pos; lia).
  set (X := (inject_Z c / 255)%Q).
  assert (EX : (X * 255 == inject_Z n * 255 + inject_Z r)%Q).
  { unfold X. rewrite Hdm at 1. rewrite inject_Z_plus, inject_Z_mult.
    change (inject_Z 255) with 255%Q. field. }
  assert (Hr0 : (0 <= inject_Z r)%Q).
  { change 0%Q with (inject_Z 0). rewrite <- Zle_Qle. lia. }
  assert (Hr1 : (inject_Z r <= 254)%Q).
  { change 254%Q with (inject_Z 254). rewrite <- Zle_Qle. lia. }
  assert (HN : (0 <= inject_Z n)%Q).
  { change 0%Q with (inject_Z 0). rewrite <- Zle_Qle. lia. }
  assert (Hc40 : (inject_Z c < 1099511627776)%Q).
  { change 1099511627776%Q with (inject_Z (2 ^ 40)). rewrite <- Zlt_Qlt. lia. }
  assert (HXc : (X * 255 == inject_Z c)%Q) by (unfold X; field).
  apply int_of_float_unit_interval; [| |exact Hn0].
  - rewrite <- (fl_int n) by lia. apply fl_mono; [exact HN | lra].
  - destruct (Z.eq_dec c 0) as [->|Hnz].
    { assert (E : (X == 0)%Q) by (unfold X; reflexivity).
      rewrite (fl_0 _ E). assert (n = 0) by reflexivity. subst n. reflexivity. }
    assert (HC1 : (1 <= inject_Z c)%Q).
    { change 1%Q with (inject_Z 1). rewrite <- Zle_Qle. lia. }
    assert (Hnorm : (pow2 (-1022) <= X)%Q).
    { apply Qle_trans with (pow2 (-8)); [apply pow2_le; lia|].
      change (pow2 (-8)) with (1 # 256)%Q. lra. }
    destruct (fl_rel_err X Hnorm) as [_ Hu]. rewrite pow2_minus_53 in Hu. lra.
Qed.

(** The binary64 quotient and product used for the percentage, bounded
    through monotonicity. *)
Lemma percentage_at_most_two_fifths (pixel_count total : Q) :
  (0 <= pixel_count)%Q -> (0 < total)%Q ->
  (pixel_count <= total * (1 # 254))%Q ->
  (0 <= fmul (fdiv pixel_count total) (float_of_int 100) <= 2 # 5)%Q.
Proof.
  intros Hp Ht Hle. unfold fmul, fdiv.
  pose proof (Qinv_lt_0_compat total Ht) as Hi.
  assert (Hinv : (total * / total == 1)%Q) by (apply Qmult_inv_r; lra).
  assert (Hq0 : (0 <= pixel_count / total)%Q) by (unfold Qdiv; nra).
  assert (Hq1 : (pixel_count / total <= 1 # 254)%Q).
  { unfold Qdiv. nra. }
  pose proof (fl_nonneg _ Hq0) as Hf0.
  pose proof (fl_mono _ _ Hq0 Hq1) as Hf1.
  assert (Hc1 : (fl (1 # 254) <= 1 # 253)%Q) by (vm_compute; discriminate).
  assert (H100 : float_of_int 100 = 100%Q) by (vm_compute; reflexivity).
  rewrite H100. split.
  - apply fl_nonneg. nra.
  - apply Qle_trans with (fl (100 # 253)).
    + apply fl_mono; [nra | lra].
    + vm_compute. discriminate.
Qed.

Lemma and_masked_all_selected (s : list pixel) :
  and_masked s s ((fun _ => 255) <$> s) = s.
Proof.
  induction s as [|p s IH]; [reflexivity|]. cbn. rewrite and_px_diag. f_equal. exact IH.
Qed.

Lemma and_masked_none_selected (s : list pixel) :
  and_masked s s ((fun _ => 0) <$> s) = (fun _ => black) <$> s.
Proof. induction s as [|p s IH]; [reflexivity|]. cbn. f_equal. exact IH. Qed.

Lemma count_true_all (s : list pixel) :
  count_true ((fun v => 0 <? v) <$> ((fun _ => 255) <$> s)) = Z.of_nat (length s).
Proof.
  induction s as [|p s IH]; [reflexivity|].
  rewrite !fmap_cons. cbn [count_true length]. rewrite IH.
  change (0 <? 255) with true. lia.
Qed.

Lemma count_true_none (s : list pixel) :
  count_true ((fun v => 0 <? v) <$> ((fun _ => 0) <$> s)) = 0.
Proof. induction s as [|p s IH]; [reflexivity|]. cbn. exact IH. Qed.

Lemma inRange_data (BGR2HSV : pixel -> pixel) (img : image) lo hi :
  data (inRange (nd_map BGR2HSV img) lo hi)
  = (fun p => inRange_px (narrow_int32 lo) (narrow_int32 hi) (BGR2HSV p)) <$> data img.
Proof. unfold inRange, nd_map. cbn. rewrite <- list_fmap_compose. reflexivity. Qed.

(** X7. For bounds in the 32-bit range the call keeps: when every pixel
    of a non-empty image converts into the box, the mask is 255
    everywhere, the composite is the image itself, and the count that is
    divided by 255 is the number of pixels. *)
Theorem range_containing_every_pixel_keeps_image (BGR2HSV : pixel -> pixel)
    (img_bgr : image) (h_min h_max s_min s_max v_min v_max : Z) :
  is_empty img_bgr = false ->
  Forall fits_int32 [h_min; h_max; s_min; s_max; v_min; v_max] ->
  Forall (fun p => h_min <= ch0 (BGR2HSV p) <= h_max /\
                   s_min <= ch1 (BGR2HSV p) <= s_max /\
                   v_min <= ch2 (BGR2HSV p) <= v_max) (data img_bgr) ->
  segment_hsv BGR2HSV img_bgr h_min h_max s_min s_max v_min v_max
  = Ok (nd_map (fun _ => 255) img_bgr, img_bgr,
        fdiv (float_of_int (Z.of_nat (length (data img_bgr)))) (float_of_int 255)).
Proof.
  intros Hne Hfit Hall.
  repeat match goal with
         | H : Forall fits_int32 (_ :: _) |- _ => apply Forall_cons in H as [? H]
         end.
  rewrite segment_hsv_eq by exact Hne. cbv zeta.
  assert (Hm : inRange (nd_map BGR2HSV img_bgr) (Px h_min s_min v_min) (Px h_max s_max v_max)
               = nd_map (fun _ => 255) img_bgr).
  { unfold inRange, nd_map. cbn [shape0 shape1 data]. f_equal.
    rewrite !narrow_int32_fits by assumption.
    rewrite <- list_fmap_compose. apply Forall_fmap_ext_1.
    eapply Forall_impl; [exact Hall|]. intros p Hp. cbn.
    apply inRange_px_selected. exact Hp. }
  rewrite Hm. unfold np_sum, np_gt0, nd_map. cbn [data shape0 shape1].
  rewrite and_masked_all_selected, count_true_all. destruct img_bgr. reflexivity.
Qed.

Lemma range_containing_every_pixel_keeps_image_witness :
  is_empty scenario_image = false /\
  Forall fits_int32 [0; 179; 0; 255; 0; 255] /\
  Forall (fun p => 0 <= ch0 (BGR2HSV_8u p) <= 179 /\
                   0 <= ch1 (BGR2HSV_8u p) <= 255 /\
                   0 <= ch2 (BGR2HSV_8u p) <= 255) (data scenario_image) /\
  segment_hsv BGR2HSV_8u scenario_image 0 179 0 255 0 255
  = Ok (nd_map (fun _ => 255) scenario_image, scenario_image,
        fdiv (float_of_int (Z.of_nat (length (data scenario_image)))) (float_of_int 255)).
Proof.
  split; [reflexivity|].
  assert (F : Forall fits_int32 [0; 179; 0; 255; 0; 255])
    by (repeat constructor; unfold fits_int32; lia).
  assert (H : Forall (fun p => 0 <= ch0 (BGR2HSV_8u p) <= 179 /\
                               0 <= ch1 (BGR2HSV_8u p) <= 255 /\
                               0 <= ch2 (BGR2HSV_8u p) <= 255) (data scenario_image)).
  { repeat constructor; vm_compute; discriminate. }
  split; [exact F|]. split; [exact H|].
  apply (range_containing_every_pixel_keeps_image BGR2HSV_8u scenario_image
           0 179 0 255 0 255); [reflexivity | exact F | exact H].
Defined.

(** X8. For bounds in the 32-bit range the call keeps: when no pixel of
    a non-empty image converts into the box (in particular when a minimum
    exceeds its maximum), the mask is 0 everywhere, the composite is
    black, the returned count is 0, and the page shows a count of 0 and a
    percentage of 0. *)
Theorem range_containing_no_pixel_gives_black (BGR2HSV : pixel -> pixel)
    (img_bgr : image) (h_min h_max s_min s_max v_min v_max : Z) :
  is_empty img_bgr = false ->
  Forall fits_int32 [h_min; h_max; s_min; s_max; v_min; v_max] ->
  Forall (fun p => ~ (h_min <= ch0 (BGR2HSV p) <= h_max /\
                      s_min <= ch1 (BGR2HSV p) <= s_max /\
                      v_min <= ch2 (BGR2HSV p) <= v_max)) (data img_bgr) ->
  segment_hsv BGR2HSV img_bgr h_min h_max s_min s_max v_min v_max
    = Ok (nd_map (fun _ => 0) img_bgr, nd_map (fun _ => black) img_bgr, 0%Q) /\
  main_app_results BGR2HSV img_bgr h_min h_max s_min s_max v_min v_max
    = Ok [StImage (nd_map swap_rb img_bgr);
          StImage (nd_map (fun _ => black) img_bgr);
          StMetric "Total Piksel Vegetasi Terdeteksi (Area Hijau)" (MInt 0);
          StMetric "Persentase Area Vegetasi" (MFloat 0%Q);
          StImageMask (nd_map (fun _ => 0) img_bgr)].
Proof.
  intros Hne Hfit Hnone.
  repeat match goal with
         | H : Forall fits_int32 (_ :: _) |- _ => apply Forall_cons in H as [? H]
         end.
  assert (Hm : inRange (nd_map BGR2HSV img_bgr) (Px h_min s_min v_min) (Px h_max s_max v_max)
               = nd_map (fun _ => 0) img_bgr).
  { unfold inRange, nd_map. cbn [shape0 shape1 data]. f_equal.
    rewrite !narrow_int32_fits by assumption.
    rewrite <- list_fmap_compose. apply Forall_fmap_ext_1.
    eapply Forall_impl; [exact Hnone|]. intros p Hp. cbn.
    destruct (inRange_px_binary (Px h_min s_min v_min) (Px h_max s_max v_max) (BGR2HSV p))
      as [E|E]; [exact E|].
    apply inRange_px_selected in E. contradiction. }
  assert (Hpc : fdiv (float_of_int
                        (np_sum (np_gt0 (nd_map (fun _ : pixel => 0) img_bgr))))
                     (float_of_int 255) = 0%Q).
  { unfold np_sum, np_gt0, nd_map. cbn [data]. rewrite count_true_none. reflexivity. }
  split.
  - rewrite segment_hsv_eq by exact Hne. cbv zeta. rewrite Hm, Hpc.
    unfold nd_map at 1 2. cbn [data shape0 shape1].
    rewrite and_masked_none_selected. reflexivity.
  - rewrite main_app_results_eq by exact Hne. cbv zeta. rewrite Hm, Hpc.
    unfold nd_map at 3. cbn [data shape0 shape1]. rewrite and_masked_none_selected.
    assert (Hq : fmul (fdiv 0%Q (float_of_int (shape0 img_bgr * shape1 img_bgr)))
                      (float_of_int 100) = 0%Q).
    { unfold fmul, fdiv.
      rewrite (fl_0 (0 / float_of_int (shape0 img_bgr * shape1 img_bgr))%Q)
        by (unfold Qdiv; ring).
      apply fl_0. ring. }
    rewrite Hq. unfold nd_map. cbn [data shape0 shape1].
    rewrite <- list_fmap_compose. reflexivity.
Qed.

Lemma range_containing_no_pixel_gives_black_witness :
  is_empty scenario_image = false /\
  Forall fits_int32 [85; 30; 50; 255; 50; 255] /\
  Forall (fun p => ~ (85 <= ch0 (BGR2HSV_8u p) <= 30 /\
                      50 <= ch1 (BGR2HSV_8u p) <= 255 /\
                      50 <= ch2 (BGR2HSV_8u p) <= 255)) (data scenario_image) /\
  segment_hsv BGR2HSV_8u scenario_image 85 30 50 255 50 255
    = Ok (nd_map (fun _ => 0) scenario_image, nd_map (fun _ => black) scenario_image, 0%Q) /\
  main_app_results BGR2HSV_8u scenario_image 85 30 50 255 50 255
    = Ok [StImage (nd_map swap_rb scenario_image);
          StImage (nd_map (fun _ => black) scenario_image);
          StMetric "Total Piksel Vegetasi Terdeteksi (Area Hijau)" (MInt 0);
          StMetric "Persentase Area Vegetasi" (MFloat 0%Q);
          StImageMask (nd_map (fun _ => 0) scenario_image)].
Proof.
  split; [reflexivity|].
  assert (F : Forall fits_int32 [85; 30; 50; 255; 50; 255])
    by (repeat constructor; unfold fits_int32; lia).
  split; [exact F|].
  assert (H : Forall (fun p => ~ (85 <= ch0 (BGR2HSV_8u p) <= 30 /\
                                  50 <= ch1 (BGR2HSV_8u p) <= 255 /\
                                  50 <= ch2 (BGR2HSV_8u p) <= 255))
                     (data scenario_image)).
  { repeat constructor; cbn; lia. }
  split; [exact H|].
  apply (range_containing_no_pixel_gives_black BGR2HSV_8u scenario_image
           85 30 50 255 50 255); [reflexivity | exact F | exact H].
Defined.

Lemma np_sum_is_count_255 (BGR2HSV : pixel -> pixel) (img_bgr : image) lo hi :
  np_sum (np_gt0 (inRange (nd_map BGR2HSV img_bgr) lo hi))
  = count_eq 255 (data (inRange (nd_map BGR2HSV img_bgr) lo hi)).
Proof.
  unfold np_sum, np_gt0. unfold nd_map at 1. cbn [data].
  apply count_true_gt0. intros v Hv. eapply inRange_binary, Hv.
Qed.

Lemma count_255_bounds (BGR2HSV : pixel -> pixel) (img_bgr : image) lo hi :
  0 <= count_eq 255 (data (inRange (nd_map BGR2HSV img_bgr) lo hi))
    <= Z.of_nat (length (data img_bgr)).
Proof.
  rewrite <- np_sum_is_count_255. unfold np_sum, np_gt0. unfold nd_map at 1. cbn [data].
  split; [apply count_true_nonneg|].
  etransitivity; [apply count_true_le_length|].
  unfold inRange. rewrite !nd_map_length. reflexivity.
Qed.

(** X9. On a non-empty image of fewer than [2^40] pixels, the count the
    page shows is the number of mask elements equal to 255 divided by 255
    and rounded down: 0 for up to 254 selected pixels, 1 from 255 on. *)
Theorem shown_count_is_selected_div_255 (BGR2HSV : pixel -> pixel) (img_bgr : image)
    (h_min h_max s_min s_max v_min v_max : Z) :
  is_empty img_bgr = false ->
  Z.of_nat (length (data img_bgr)) < 2 ^ 40 ->
  exists mask result pixel_count img_rgb result_rgb label label' pct,
    segment_hsv BGR2HSV img_bgr h_min h_max s_min s_max v_min v_max
      = Ok (mask, result, pixel_count) /\
    main_app_results BGR2HSV img_bgr h_min h_max s_min s_max v_min v_max
      = Ok [StImage img_rgb; StImage result_rgb;
            StMetric label (MInt (count_eq 255 (data mask) / 255));
            StMetric label' (MFloat pct);
            StImageMask mask].
Proof.
  intros Hne Hlen. do 8 eexists. split; [apply segment_hsv_eq, Hne|].
  rewrite main_app_results_eq by exact Hne. cbv zeta.
  rewrite np_sum_is_count_255.
  rewrite int_of_count_over_255; [reflexivity|].
  pose proof (count_255_bounds BGR2HSV img_bgr (Px h_min s_min v_min) (Px h_max s_max v_max)).
  lia.
Qed.

Lemma shown_count_is_selected_div_255_witness :
  is_empty scenario_image = false /\
  Z.of_nat (length (data scenario_image)) < 2 ^ 40 /\
  exists mask result pixel_count img_rgb result_rgb label label' pct,
    segment_hsv BGR2HSV_8u scenario_image 30 85 50 255 50 255
      = Ok (mask, result, pixel_count) /\
    main_app_results BGR2HSV_8u scenario_image 30 85 50 255 50 255
      = Ok [StImage img_rgb; StImage result_rgb;
            StMetric label (MInt (count_eq 255 (data mask) / 255));
            StMetric label' (MFloat pct);
            StImageMask mask].
Proof.
  split; [reflexivity|]. split; [cbn; lia|].
  apply (shown_count_is_selected_div_255 BGR2HSV_8u scenario_image 30 85 50 255 50 255);
    [reflexivity | cbn; lia].
Defined.

(** X10. On a well-formed, non-empty image of fewer than [2^53] pixels
    the percentage the page shows lies between 0 and 0.4, whatever the
    range: the count it is derived from has already been divided by
    255. *)
Theorem shown_percentage_at_most_two_fifths (BGR2HSV : pixel -> pixel) (img_bgr : image)
    (h_min h_max s_min s_max v_min v_max : Z) :
  well_formed img_bgr -> is_empty img_bgr = false ->
  shape0 img_bgr * shape1 img_bgr < 2 ^ 53 ->
  exists img_rgb result_rgb label n label' pct mask,
    main_app_results BGR2HSV img_bgr h_min h_max s_min s_max v_min v_max
      = Ok [StImage img_rgb; StImage result_rgb;
            StMetric label (MInt n); StMetric label' (MFloat pct);
            StImageMask mask] /\
    (0 <= pct <= 2 # 5)%Q.
Proof.
  intros (Hs0 & Hs1 & Hwf) Hne Hbig. do 7 eexists.
  split; [apply main_app_results_eq, Hne|]. cbv zeta.
  rewrite np_sum_is_count_255.
  pose proof (count_255_bounds BGR2HSV img_bgr (Px h_min s_min v_min) (Px h_max s_max v_max))
    as [Hc0 Hc1].
  set (c := count_eq 255 _) in *.
  set (N := shape0 img_bgr * shape1 img_bgr) in *.
  apply not_empty_iff in Hne.
  assert (HN1 : 1 <= N) by (unfold N; nia).
  assert (HcN : c <= N) by lia.
  assert (EN : (float_of_int N == inject_Z N)%Q) by (apply fl_int; lia).
  assert (HNq : (1 <= inject_Z N)%Q).
  { change 1%Q with (inject_Z 1). rewrite <- Zle_Qle. exact HN1. }
  assert (Hpc0 : (0 <= fdiv (float_of_int c) (float_of_int 255))%Q).
  { unfold fdiv. apply fl_nonneg.
    pose proof (float_of_int_nonneg c Hc0).
    assert (E255 : float_of_int 255 = 255%Q) by (vm_compute; reflexivity).
    rewrite E255. unfold Qdiv. change (/ 255)%Q with (1 # 255)%Q. lra. }
  assert (Hpc1 : (fdiv (float_of_int c) (float_of_int 255) <= inject_Z N * (1 # 254))%Q).
  { apply Qle_trans with (fdiv (float_of_int N) (float_of_int 255)).
    - apply fdiv_mono_num; [apply float_of_int_nonneg, Hc0 | | reflexivity].
      apply float_of_int_mono. lia.
    - unfold fdiv.
      rewrite (fl_comp (float_of_int N / float_of_int 255) (inject_Z N / 255)).
      2:{ rewrite EN. reflexivity. }
      assert (Hn : (pow2 (-1022) <= inject_Z N / 255)%Q).
      { apply Qle_trans with (pow2 (-8)); [apply pow2_le; lia|].
        change (pow2 (-8)) with (1 # 256)%Q. unfold Qdiv.
        change (/ 255)%Q with (1 # 255)%Q. lra. }
      destruct (fl_rel_err _ Hn) as [_ Hu]. rewrite pow2_minus_53 in Hu.
      unfold Qdiv in *. change (/ 255)%Q with (1 # 255)%Q in *. lra. }
  apply percentage_at_most_two_fifths; [exact Hpc0 | rewrite EN; lra | rewrite EN; exact Hpc1].
Qed.

Lemma shown_percentage_at_most_two_fifths_witness :
  well_formed scenario_image /\ is_empty scenario_image = false /\
  shape0 scenario_image * shape1 scenario_image < 2 ^ 53 /\
  exists img_rgb result_rgb label n label' pct mask,
    main_app_results BGR2HSV_8u scenario_image 30 85 50 255 50 255
      = Ok [StImage img_rgb; StImage result_rgb;
            StMetric label (MInt n); StMetric label' (MFloat pct);
            StImageMask mask] /\
    (0 <= pct <= 2 # 5)%Q.
Proof.
  assert (Hwf : well_formed scenario_image) by (unfold well_formed; cbn; lia).
  split; [exact Hwf|]. split; [reflexivity|]. split; [cbn; lia|].
  apply (shown_percentage_at_most_two_fifths BGR2HSV_8u scenario_image 30 85 50 255 50 255);
    [exact Hwf | reflexivity | cbn; lia].
Defined.

(** X11. On a well-formed, non-empty image [segment_hsv] returns
    well-formed arrays: the mask and the composite have the shape of the
    image and one element per pixel, and the returned count is not
    negative. *)
Theorem segment_hsv_returns_well_formed_arrays (BGR2HSV : pixel -> pixel)
    (img_bgr : image) (h_min h_max s_min s_max v_min v_max : Z) :
  well_formed img_bgr -> is_empty img_bgr = false ->
  exists mask result pixel_count,
    segment_hsv BGR2HSV img_bgr h_min h_max s_min s_max v_min v_max
      = Ok (mask, result, pixel_count) /\
    well_formed mask /\ well_formed result /\
    same_shape img_bgr mask = true /\ same_shape img_bgr result = true /\
    is_empty result = false /\
    (0 <= pixel_count)%Q.
Proof.
  intros (Hs0 & Hs1 & Hwf) Hne. do 3 eexists.
  split; [apply segment_hsv_eq, Hne|]. cbv zeta.
  assert (Hlen : length (data (inRange (nd_map BGR2HSV img_bgr)
                                 (Px h_min s_min v_min) (Px h_max s_max v_max)))
                 = length (data img_bgr)).
  { unfold inRange. rewrite !nd_map_length. reflexivity. }
  repeat split; cbn [shape0 shape1 data inRange nd_map]; try assumption.
  - rewrite !length_fmap. exact Hwf.
  - rewrite and_masked_length; [exact Hwf|]. rewrite !length_fmap. reflexivity.
  - unfold same_shape. cbn. rewrite !Z.eqb_refl. reflexivity.
  - unfold same_shape. cbn. rewrite !Z.eqb_refl. reflexivity.
  - unfold fdiv. apply fl_nonneg.
    assert (E255 : float_of_int 255 = 255%Q) by (vm_compute; reflexivity).
    rewrite E255. unfold Qdiv. change (/ 255)%Q with (1 # 255)%Q.
    match goal with
    | |- (0 <= float_of_int ?c * _)%Q =>
        assert (H0 : (0 <= float_of_int c)%Q)
          by (apply float_of_int_nonneg, count_true_nonneg)
    end.
    lra.
Qed.

Lemma segment_hsv_returns_well_formed_arrays_witness :
  well_formed scenario_image /\ is_empty scenario_image = false /\
  exists mask result pixel_count,
    segment_hsv BGR2HSV_8u scenario_image 30 85 50 255 50 255
      = Ok (mask, result, pixel_count) /\
    well_formed mask /\ well_formed result /\
    same_shape scenario_image mask = true /\ same_shape scenario_image result = true /\
    is_empty result = false /\
    (0 <= pixel_count)%Q.
Proof.
  assert (Hwf : well_formed scenario_image) by (unfold well_formed; cbn; lia).
  split; [exact Hwf|]. split; [reflexivity|].
  apply (segment_hsv_returns_well_formed_arrays BGR2HSV_8u scenario_image
           30 85 50 255 50 255); [exact Hwf | reflexivity].
Defined.

(** ** The text of the count *)

Lemma digit_not_comma c : is_digit c = true -> Ascii.eqb c "," = false.
Proof. destruct c as [[] [] [] [] [] [] [] []]; vm_compute; congruence. Qed.

Lemma digit_not_dot c : is_digit c = true -> Ascii.eqb c "." = false.
Proof. destruct c as [[] [] [] [] [] [] [] []]; vm_compute; congruence. Qed.

Lemma digits_of_uint d :
  forallb is_digit (list_ascii_of_string (NilEmpty.string_of_uint d)) = true.
Proof. induction d; cbn; auto. Qed.

Lemma digits_of_uint_nilzero d :
  forallb is_digit (list_ascii_of_string (NilZero.string_of_uint d)) = true.
Proof. destruct d; try apply (digits_of_uint (_ _)); reflexivity. Qed.

(** Removing the separators of [group3] gives back the digits. *)
Lemma group3_remove_commas_aux (l : list ascii) :
  forallb is_digit l = true ->
  (List.filter (not_char ",") (group3 l) = l) /\
  (forall a, is_digit a = true -> List.filter (not_char ",") (group3 (a :: l)) = a :: l) /\
  (forall a b, is_digit a = true -> is_digit b = true ->
     List.filter (not_char ",") (group3 (a :: b :: l)) = a :: b :: l).
Proof.
  induction l as [|c l IH]; intros Hl.
  - repeat split; intros; cbn; unfold not_char; rewrite ?digit_not_comma by assumption;
      reflexivity.
  - cbn in Hl. apply andb_prop in Hl as [Hc Hl]. destruct (IH Hl) as (I0 & I1 & I2).
    split; [apply I1, Hc|]. split; [intros a Ha; apply I2; assumption|].
    intros a b Ha Hb. destruct l as [|d l'].
    + cbn. unfold not_char. rewrite !digit_not_comma by assumption. reflexivity.
    + change (group3 (a :: b :: c :: d :: l'))
        with (a :: b :: c :: ","%char :: group3 (d :: l')).
      cbn [List.filter]. unfold not_char at 1 2 3 4.
      rewrite !digit_not_comma by assumption. cbn [negb Ascii.eqb].
      change (negb (Ascii.eqb "," ",")) with false. cbv iota. rewrite I0. reflexivity.
Qed.

Lemma group3_remove_commas l :
  forallb is_digit l = true -> List.filter (not_char ",") (group3 l) = l.
Proof. intros H. apply group3_remove_commas_aux, H. Qed.

(** [group3] adds nothing but commas. *)
Lemma group3_chars l :
  forallb is_digit l = true ->
  forallb (fun c => is_digit c || Ascii.eqb c ",") (group3 l) = true.
Proof.
  intros H.
  assert (Haux :
    forallb (fun c => is_digit c || Ascii.eqb c ",") (group3 l) = true /\
    (forall a, is_digit a = true ->
       forallb (fun c => is_digit c || Ascii.eqb c ",") (group3 (a :: l)) = true) /\
    (forall a b, is_digit a = true -> is_digit b = true ->
       forallb (fun c => is_digit c || Ascii.eqb c ",") (group3 (a :: b :: l)) = true)).
  { induction l as [|c l IH].
    - repeat split; intros; cbn; rewrite ?H0, ?H1; reflexivity.
    - cbn in H. apply andb_prop in H as [Hc Hl]. destruct (IH Hl) as (I0 & I1 & I2).
      split; [apply I1, Hc|]. split; [intros a Ha; apply I2; assumption|].
      intros a b Ha Hb. destruct l as [|d l'].
      + cbn. rewrite Ha, Hb, Hc. reflexivity.
      + change (group3 (a :: b :: c :: d :: l'))
          with (a :: b :: c :: ","%char :: group3 (d :: l')).
        cbn [forallb]. rewrite Ha, Hb, Hc, I0. reflexivity. }
  apply Haux.
Qed.

Lemma subst_then_remove (l : list ascii) :
  forallb (fun c => is_digit c || Ascii.eqb c ",") l = true ->
  List.filter (not_char ".") (List.map (subst_char "," ".") l)
  = List.filter (not_char ",") l /\
  List.filter (not_char ",") (List.map (subst_char "," ".") l)
  = List.map (subst_char "," ".") l.
Proof.
  induction l as [|c l IH]; intros H; [split; reflexivity|].
  cbn in H. apply andb_prop in H as [Hc Hl]. destruct (IH Hl) as [IH1 IH2].
  destruct (Ascii.eqb c ",") eqn:E.
  - apply Ascii.eqb_eq in E. subst c. cbn [List.map List.filter].
    change (subst_char "," "." ",") with "."%char.
    change (not_char "." ".") with false. change (not_char "," ",") with false.
    change (not_char "," ".") with true. cbv iota.
    split; [exact IH1 | f_equal; exact IH2].
  - rewrite orb_false_r in Hc.
    assert (S : subst_char "," "." c = c) by (unfold subst_char; rewrite E; reflexivity).
    assert (N1 : not_char "." c = true) by (unfold not_char; rewrite digit_not_dot; auto).
    assert (N2 : not_char "," c = true) by (unfold not_char; rewrite E; reflexivity).
    cbn [List.map List.filter]. rewrite S, N1, N2.
    split; f_equal; assumption.
Qed.

Lemma count_text_unfold (n : Z) :
  list_ascii_of_string (count_text n)
  = (if n <? 0 then ["-"%char] else []) ++
    List.map (subst_char "," ".")
      (rev (group3 (rev (list_ascii_of_string
                           (NilZero.string_of_uint (N.to_uint (Z.abs_N n))))))).
Proof.
  unfold count_text, replace_char, py_format_comma.
  rewrite list_ascii_of_string_of_list_ascii.
  destruct (n <? 0); cbn [list_ascii_of_string List.map app];
    rewrite list_ascii_of_string_of_list_ascii; reflexivity.
Qed.

Lemma decimal_text (n : Z) :
  list_ascii_of_string (NilZero.string_of_int (Z.to_int n))
  = (if n <? 0 then ["-"%char] else []) ++
    list_ascii_of_string (NilZero.string_of_uint (N.to_uint (Z.abs_N n))).
Proof. destruct n; reflexivity. Qed.

Lemma to_int_not_nil (n : Z) : Z.to_int n <> Pos Nil /\ Z.to_int n <> Neg Nil.
Proof.
  destruct n; cbn; split; try discriminate;
    intros [= H]; apply (DecimalPos.Unsigned.to_uint_nonnil _ H).
Qed.

(** X12. The count metric's text, with its dots deleted, is the decimal
    text of the number, so reading it back gives the number; and no comma
    is left in it. *)
Theorem count_text_round_trip (n : Z) :
  remove_char "." (count_text n) = NilZero.string_of_int (Z.to_int n) /\
  option_map Z.of_int (NilZero.int_of_string (remove_char "." (count_text n))) = Some n /\
  remove_char "," (count_text n) = count_text n.
Proof.
  set (ds := list_ascii_of_string (NilZero.string_of_uint (N.to_uint (Z.abs_N n)))).
  assert (Hds : forallb is_digit ds = true) by apply digits_of_uint_nilzero.
  assert (Hrev : forallb is_digit (rev ds) = true).
  { rewrite forallb_forall in *. intros c Hc. apply Hds, in_rev, Hc. }
  pose proof (group3_chars _ Hrev) as Hg.
  assert (Hg' : forallb (fun c => is_digit c || Ascii.eqb c ",") (rev (group3 (rev ds))) = true).
  { rewrite forallb_forall in *. intros c Hc. apply Hg, in_rev, Hc. }
  destruct (subst_then_remove _ Hg') as [Hdot Hcomma].
  assert (Hstrip : remove_char "." (count_text n) = NilZero.string_of_int (Z.to_int n)).
  { unfold remove_char. rewrite count_text_unfold. fold ds.
    rewrite <- (string_of_list_ascii_of_string (NilZero.string_of_int (Z.to_int n))).
    rewrite decimal_text. fold ds. f_equal.
    rewrite List.filter_app. fold (not_char "."). rewrite Hdot.
    rewrite List.filter_rev, group3_remove_commas by exact Hrev.
    rewrite rev_involutive. destruct (n <? 0); reflexivity. }
  split; [exact Hstrip|]. split.
  - rewrite Hstrip. destruct (to_int_not_nil n) as [H1 H2].
    rewrite NilZero.isi by assumption. cbn. rewrite DecimalZ.of_to. reflexivity.
  - unfold remove_char. rewrite count_text_unfold. fold ds.
    rewrite List.filter_app. fold (not_char ","). rewrite Hcomma.
    rewrite <- (string_of_list_ascii_of_string (count_text n)).
    rewrite count_text_unfold. fold ds. destruct (n <? 0); reflexivity.
Qed.

(** ** What a call does to the store *)

(** X13. A call of [segment_hsv] that returns has read a non-empty image
    at its argument; it changes and removes no object of the store, and
    the mask and the composite it returns are new objects, at identities
    that were free before the call. *)
Theorem segment_hsv_call_only_allocates (BGR2HSV : pixel -> pixel) (σ σ' : store)
    (img_bgr l_mask l_result : loc) (pixel_count : float)
    (h_min h_max s_min s_max v_min v_max : Z) :
  segment_hsv_ref BGR2HSV img_bgr h_min h_max s_min s_max v_min v_max σ
    = Ok ((l_mask, l_result, pixel_count), σ') ->
  (exists img, σ !! img_bgr = Some (ObjImage img) /\ is_empty img = false) /\
  (forall l o, σ !! l = Some o -> σ' !! l = Some o) /\
  σ !! l_mask = None /\ σ !! l_result = None /\
  (exists mask, σ' !! l_mask = Some (ObjMask mask)) /\
  (exists result, σ' !! l_result = Some (ObjImage result)).
Proof.
  intros Hrun.
  destruct (σ !! img_bgr) as [[img|m]|] eqn:E.
  - destruct (is_empty img) eqn:Hne.
    + unfold segment_hsv_ref, st_bind, get_image, st_lift, cvtColor_BGR2HSV in Hrun.
      rewrite E, Hne in Hrun. discriminate.
    + destruct (segment_hsv_ref_run BGR2HSV σ img_bgr img h_min h_max s_min s_max v_min v_max
                  E Hne)
        as (mask & result & pc & lm & lr & σ1 & _ & Hrun' & Hm & Hr & Hnm & Hnr & Hf).
      rewrite Hrun' in Hrun. injection Hrun as -> -> -> ->.
      split; [exists img; split; [reflexivity | exact Hne]|].
      split; [exact Hf|]. split; [exact Hnm|]. split; [exact Hnr|].
      split; eexists; eassumption.
  - unfold segment_hsv_ref, st_bind, get_image in Hrun. rewrite E in Hrun. discriminate.
  - unfold segment_hsv_ref, st_bind, get_image in Hrun. rewrite E in Hrun. discriminate.
Qed.

Lemma segment_hsv_call_only_allocates_witness :
  segment_hsv_ref BGR2HSV_8u 1%positive 30 85 50 255 50 255
      {[ 1%positive := ObjImage green_pixel_image ]}
    = Ok ((3%positive, 4%positive, (282578800148737 # 72057594037927936)%Q),
          <[ 4%positive := ObjImage (NdArray 1 1 [Px 43 200 43]) ]>
            (<[ 3%positive := ObjMask (NdArray 1 1 [255]) ]>
               (<[ 2%positive := ObjImage (NdArray 1 1 [Px 60 200 200]) ]>
                  {[ 1%positive := ObjImage green_pixel_image ]}))) /\
  (exists img,
     ({[ 1%positive := ObjImage green_pixel_image ]} : store) !! 1%positive
       = Some (ObjImage img) /\ is_empty img = false) /\
  (forall l o,
     ({[ 1%positive := ObjImage green_pixel_image ]} : store) !! l = Some o ->
     (<[ 4%positive := ObjImage (NdArray 1 1 [Px 43 200 43]) ]>
        (<[ 3%positive := ObjMask (NdArray 1 1 [255]) ]>
           (<[ 2%positive := ObjImage (NdArray 1 1 [Px 60 200 200]) ]>
              ({[ 1%positive := ObjImage green_pixel_image ]} : store)))) !! l = Some o) /\
  ({[ 1%positive := ObjImage green_pixel_image ]} : store) !! 3%positive = None /\
  ({[ 1%positive := ObjImage green_pixel_image ]} : store) !! 4%positive = None /\
  (exists mask,
     (<[ 4%positive := ObjImage (NdArray 1 1 [Px 43 200 43]) ]>
        (<[ 3%positive := ObjMask (NdArray 1 1 [255]) ]>
           (<[ 2%positive := ObjImage (NdArray 1 1 [Px 60 200 200]) ]>
              ({[ 1%positive := ObjImage green_pixel_image ]} : store)))) !! 3%positive
     = Some (ObjMask mask)) /\
  (exists result,
     (<[ 4%positive := ObjImage (NdArray 1 1 [Px 43 200 43]) ]>
        (<[ 3%positive := ObjMask (NdArray 1 1 [255]) ]>
           (<[ 2%positive := ObjImage (NdArray 1 1 [Px 60 200 200]) ]>
              ({[ 1%positive := ObjImage green_pixel_image ]} : store)))) !! 4%positive
     = Some (ObjImage result)).
Proof.
  assert (Hrun :
    segment_hsv_ref BGR2HSV_8u 1%positive 30 85 50 255 50 255
        {[ 1%positive := ObjImage green_pixel_image ]}
      = Ok ((3%positive, 4%positive, (282578800148737 # 72057594037927936)%Q),
            <[ 4%positive := ObjImage (NdArray 1 1 [Px 43 200 43]) ]>
              (<[ 3%positive := ObjMask (NdArray 1 1 [255]) ]>
                 (<[ 2%positive := ObjImage (NdArray 1 1 [Px 60 200 200]) ]>
                    {[ 1%positive := ObjImage green_pixel_image ]})))).
  { vm_compute. reflexivity. }
  split; [exact Hrun|].
  exact (segment_hsv_call_only_allocates BGR2HSV_8u _ _ _ _ _ _ _ _ _ _ _ _ Hrun).
Defined.

(** ** Orientation of a loaded image *)

Lemma int_of_float_mono (x y : Q) :
  (0 <= x)%Q -> (x <= y)%Q -> int_of_float x <= int_of_float y.
Proof.
  intros Hx Hxy. unfold int_of_float.
  assert (Hy : (0 <= y)%Q) by lra.
  apply Qle_bool_iff in Hx, Hy. rewrite Hx, Hy. apply Qfloor_resp_le, Hxy.
Qed.

(** The truncated scaled side grows with the side. *)
Lemma scaled_side_mono (d d' : Z) (scale : Q) :
  0 <= d <= d' -> (0 <= scale)%Q ->
  int_of_float (fmul (float_of_int d) scale) <= int_of_float (fmul (float_of_int d') scale).
Proof.
  intros Hd Hs. unfold fmul.
  pose proof (float_of_int_nonneg d ltac:(lia)) as H0.
  pose proof (float_of_int_mono d d' Hd) as H1.
  apply int_of_float_mono.
  - apply fl_nonneg. nra.
  - apply fl_mono; nra.
Qed.

Lemma py_truediv_nonneg (a b : Z) (q : Q) :
  0 <= a -> 0 < b -> py_truediv a b = Ok q -> (0 <= q)%Q.
Proof.
  intros Ha Hb. unfold py_truediv. destruct (Z.eqb_spec b 0); [lia|]. intros [= <-].
  apply fl_nonneg.
  assert (HA : (0 <= inject_Z a)%Q) by (change 0%Q with (inject_Z 0); rewrite <- Zle_Qle; lia).
  assert (HB : (0 < inject_Z b)%Q) by (change 0%Q with (inject_Z 0); rewrite <- Zlt_Qlt; lia).
  pose proof (Qinv_lt_0_compat _ HB). unfold Qdiv. nra.
Qed.

(** X14. The loader keeps the orientation: when it returns an image, a
    decoded image with no more rows than columns gives a result with no
    more rows than columns, and likewise with rows and columns
    exchanged. *)
Theorem loaded_image_keeps_orientation imdecode resample f buf img shown out :
  read f = Ok buf -> imdecode buf = Ok (Some img) ->
  load_color_image imdecode resample (Some f) = Ok (shown, Some out) ->
  (shape0 img <= shape1 img -> shape0 out <= shape1 out) /\
  (shape1 img <= shape0 img -> shape1 out <= shape0 out).
Proof.
  intros Hr Hd Hload.
  destruct (Z.le_gt_cases (Z.max (shape0 img) (shape1 img)) 800) as [Hm|Hm].
  - rewrite (load_within_bound imdecode resample f buf img Hr Hd Hm) in Hload.
    injection Hload as <- <-. split; intros H; exact H.
  - destruct (py_truediv 800 (Z.max (shape0 img) (shape1 img))) as [scale|e] eqn:Hs.
    + rewrite (load_over_bound imdecode resample f buf img scale Hr Hd Hm Hs) in Hload.
      assert (Hs0 : (0 <= scale)%Q).
      { apply (py_truediv_nonneg 800 (Z.max (shape0 img) (shape1 img)) scale); [lia | lia | exact Hs]. }
      destruct (cv2_resize resample img _) as [o|e] eqn:Hres; [|discriminate].
      injection Hload as <- <-.
      assert (Hne : is_empty img = false).
      { unfold cv2_resize in Hres. destruct (is_empty img); [discriminate | reflexivity]. }
      apply not_empty_iff in Hne.
      apply cv2_resize_shape in Hres as (-> & -> & _ & _).
      split; intros H; apply scaled_side_mono; (lia || exact Hs0).
    + unfold py_truediv in Hs. destruct (Z.eqb_spec (Z.max (shape0 img) (shape1 img)) 0);
        [lia | discriminate].
Qed.

Lemma loaded_image_keeps_orientation_witness :
  read wide_upload = Ok (Byte.x50 :: Byte.x02 :: replicate 1602 Byte.x80) /\
  raw_imdecode (Byte.x50 :: Byte.x02 :: replicate 1602 Byte.x80) = Ok (Some wide_image) /\
  load_color_image raw_imdecode first_pixel_resample (Some wide_upload)
    = Ok ([], Some (NdArray 1 800 (replicate 800 (Px 128 128 128)))) /\
  (shape0 wide_image <= shape1 wide_image ->
   shape0 (NdArray 1 800 (replicate 800 (Px 128 128 128)))
     <= shape1 (NdArray 1 800 (replicate 800 (Px 128 128 128)))) /\
  (shape1 wide_image <= shape0 wide_image ->
   shape1 (NdArray 1 800 (replicate 800 (Px 128 128 128)))
     <= shape0 (NdArray 1 800 (replicate 800 (Px 128 128 128)))).
Proof.
  split; [reflexivity|]. split; [vm_compute; reflexivity|].
  split; [vm_compute; reflexivity|].
  apply (loaded_image_keeps_orientation raw_imdecode first_pixel_resample wide_upload
           (Byte.x50 :: Byte.x02 :: replicate 1602 Byte.x80) wide_image []).
  - reflexivity.
  - vm_compute. reflexivity.
  - vm_compute. reflexivity.
Defined.
